(** * The artifact upload command of the agent

    A shallow embedding of [clicommand/artifact_upload.go]: the [Action] of
    [ArtifactUploadCommand], which loads the configuration, picks an uploader
    from the destination string and hands the batch to the artifact uploader
    of package [agent].

    The command talks to code that lives in other packages (the configuration
    loader, the logger, the API client, the uploader constructors and the
    artifact uploader itself).  Those collaborators are the fields of the
    class [External]; the command is a program in a small trace-and-exit
    monad, so that "what happened before the process stopped" is a value one
    can compute and state theorems about. *)

From Stdlib Require Import ZArith Ascii String List Lia.
From stdpp Require Import base option list strings gmap.

Local Open Scope Z_scope.

(** ** Strings as Go has them *)

(** [strings.HasPrefix]:
    [len(s) >= len(prefix) && s[0:len(prefix)] == prefix]. *)
Definition HasPrefix (s prefix : string) : bool :=
  (String.length prefix <=? String.length s)%nat
  && String.eqb (substring 0 (String.length prefix) s) prefix.

(** Go's [error]: [nil], or a value with its [Error()] text. *)
Definition error : Type := option string.

(** The operands this file passes to [fmt.Sprintf] and to the logger. *)
Inductive Arg : Type :=
| ArgString (s : string)
| ArgError (e : error).

(** How the [%v] verb prints an operand: a string verbatim, an error
    through [Error()]. *)
Definition render (a : Arg) : string :=
  match a with
  | ArgString s => s
  | ArgError (Some m) => m
  | ArgError None => "<nil>"
  end.

(** [fmt.Sprintf], for the verbs this file uses on strings and errors, [%v]
    and [%s], which print such an operand the same way.  Each verb consumes
    the next operand; a verb with no operand left prints as [%!v(MISSING)]
    (for [%s], [%!s(MISSING)]).  Other bytes are copied. *)
Fixpoint Sprintf (format : string) (a : list Arg) : string :=
  match format with
  | EmptyString => EmptyString
  | String c rest =>
      if Ascii.eqb c "%" then
        match rest with
        | String v rest' =>
            if Ascii.eqb v "v" || Ascii.eqb v "s" then
              match a with
              | x :: a' => render x +:+ Sprintf rest' a'
              | [] => "%!" +:+ String v "(MISSING)" +:+ Sprintf rest' []
              end
            else String c (Sprintf rest a)
        | EmptyString => "%!(NOVERB)"
        end
      else String c (Sprintf rest a)
  end.

(** ** Configuration structs *)

Module ArtifactUploadConfig.
Record t : Type := mk {
  UploadPaths : string; Destination : string; Job : string;
  ContentType : string; S3ACL : string;
  (* Global flags *)
  NoColor : bool; Debug : bool; Experiments : list string; Profile : string;
  (* API config *)
  DebugHTTP : bool; AgentAccessToken : string; Endpoint : string;
  NoHTTP2 : bool;
  (* Uploader flags *)
  FollowSymlinks : bool
}.

(** [ArtifactUploadConfig{}] *)
Definition zero : t :=
  mk EmptyString EmptyString EmptyString EmptyString EmptyString
     false false [] EmptyString false EmptyString EmptyString false false.
End ArtifactUploadConfig.

Module ArtifactUploaderConfig.
Record t : Type := mk {
  JobID : string; Paths : string; Destination : string;
  ContentType : string; DebugHTTP : bool; FollowSymlinks : bool
}.
End ArtifactUploaderConfig.

Module S3UploaderConfig.
Record t : Type := mk {
  Destination : string; DebugHTTP : bool; DefaultObjectACL : string
}.
End S3UploaderConfig.

Module GSUploaderConfig.
Record t : Type := mk { Destination : string; DebugHTTP : bool }.
End GSUploaderConfig.

Module ArtifactoryUploaderConfig.
Record t : Type := mk { Destination : string; DebugHTTP : bool }.
End ArtifactoryUploaderConfig.

Module FormUploaderConfig.
Record t : Type := mk { DebugHTTP : bool }.
End FormUploaderConfig.

(** ** What package [agent] does on the wire

    The effects behind [ArtifactUploader.Upload]: expanding the glob, the
    calls to the orchestration service and the upload attempts. *)

Inductive ArtifactState : Type := pending | uploading | uploaded | failed.

#[global] Instance ArtifactState_eq_dec : EqDecision ArtifactState.
Proof. solve_decision. Defined.

Inductive AgentEvent : Type :=
| GlobResolve (pattern : string) (followSymlinks : bool)
| CreateArtifactBatch (jobID : string) (count : nat)
| UploadAttempt (index attempt : nat)
| UpdateArtifactStatus (index : nat) (st : ArtifactState).

(** ** The collaborators of the command *)

Class External : Type := {
  (** [*cli.Context]: the arguments, flags and environment of one run *)
  cli_Context : Type;
  (** values of the interface [agent.Uploader] *)
  Uploader : Type;
  (** the zero value of [var uploaderClient agent.Uploader] *)
  nilUploader : Uploader;
  APIClientConfig : Type;
  APIClient : Type;
  (** [cliconfig.Load(c, l, &cfg)]: fills [cfg], returns an error *)
  cliconfig_Load :
    cli_Context -> ArtifactUploadConfig.t -> ArtifactUploadConfig.t * error;
  loadAPIClientConfig : ArtifactUploadConfig.t -> string -> APIClientConfig;
  api_NewClient : APIClientConfig -> APIClient;
  NewS3Uploader : S3UploaderConfig.t -> Uploader * error;
  NewGSUploader : GSUploaderConfig.t -> Uploader * error;
  NewArtifactoryUploader : ArtifactoryUploaderConfig.t -> Uploader * error;
  (** a single result: the form uploader's constructor returns no error *)
  NewFormUploader : FormUploaderConfig.t -> Uploader;
  (** [uploader.Upload(uploaderClient)]: what it did, and its error *)
  ArtifactUploader_Upload :
    APIClient -> ArtifactUploaderConfig.t -> Uploader ->
    list AgentEvent * error
}.

(** ** Traces *)

Inductive Event `{External} : Type :=
| EvLoad (c : cli_Context)
| EvHandleGlobalFlags (cfg : ArtifactUploadConfig.t)
| EvNewClient (conf : APIClientConfig)
| EvNewS3Uploader (conf : S3UploaderConfig.t)
| EvNewGSUploader (conf : GSUploaderConfig.t)
| EvNewArtifactoryUploader (conf : ArtifactoryUploaderConfig.t)
| EvNewFormUploader (conf : FormUploaderConfig.t)
| EvInfo (format : string) (args : list Arg)
| EvFatal (format : string) (args : list Arg)
| EvUpload (client : APIClient) (conf : ArtifactUploaderConfig.t)
           (uploaderClient : Uploader)
| EvAgent (e : AgentEvent)
| EvDone.

(** ** The command monad: a trace, and early exit *)

Inductive Outcome (A : Type) : Type :=
| Returned (a : A)
| Exited (status : Z).
Arguments Returned {A} a.
Arguments Exited {A} status.

Definition Cmd `{External} (A : Type) : Type :=
  list Event -> Outcome A * list Event.

Definition ret `{External} {A} (a : A) : Cmd A := fun t => (Returned a, t).

Definition bind `{External} {A B} (m : Cmd A) (k : A -> Cmd B) : Cmd B :=
  fun t =>
    match m t with
    | (Returned a, t') => k a t'
    | (Exited n, t') => (Exited n, t')
    end.

Notation "x <- m ;; k" := (bind m (fun x => k))
  (at level 100, m at next level, right associativity).
Notation "m ;;; k" := (bind m (fun _ => k))
  (at level 100, right associativity).

Definition emit `{External} (e : Event) : Cmd unit :=
  fun t => (Returned tt, t ++ [e]).

Definition emits `{External} (es : list Event) : Cmd unit :=
  fun t => (Returned tt, t ++ es).

(** [l.Info(format, v...)] *)
Definition l_Info `{External} (format : string) (v : list Arg) : Cmd unit :=
  emit (EvInfo format v).

(** Modelled from the spec: the logger's [Fatal] is not part of
    [artifact_upload.go].  Per sections 6 and 7 of the specification an
    abort writes a diagnostic and ends the process with a non-zero status;
    the status is taken to be 1.  Nothing after the call runs, deferred
    calls included.  The event keeps the format and the operands as the
    command passes them. *)
Definition l_Fatal `{External} {A} (format : string) (v : list Arg) : Cmd A :=
  fun t => (Exited 1, t ++ [EvFatal format v]).

(** [if err != nil { l.Fatal(...) }] *)
Definition fatal_if `{External} (err : error) (format : string)
    (v : list Arg) : Cmd unit :=
  match err with
  | Some _ => l_Fatal format v
  | None => ret tt
  end.

(** ** The command *)

Definition uploaderConfigOf (cfg : ArtifactUploadConfig.t)
  : ArtifactUploaderConfig.t :=
  ArtifactUploaderConfig.mk
    (ArtifactUploadConfig.Job cfg)
    (ArtifactUploadConfig.UploadPaths cfg)
    (ArtifactUploadConfig.Destination cfg)
    (ArtifactUploadConfig.ContentType cfg)
    (ArtifactUploadConfig.DebugHTTP cfg)
    (ArtifactUploadConfig.FollowSymlinks cfg).

Definition invalidDestinationFormat : string :=
  "Invalid upload destination: '%v'. Only s3://, gs:// or rt:// upload destinations are allowed. Did you forget to surround your artifact upload pattern in double quotes?".

(** The body of [Action: func(c *cli.Context)]. *)
Definition Action `{External} (c : cli_Context) : Cmd unit :=
  let err : error := None in
  let cfg := ArtifactUploadConfig.zero in
  (* Load the configuration *)
  loaded <- (emit (EvLoad c) ;;; ret (cliconfig_Load c cfg)) ;;
  let '(cfg, err) := loaded in
  fatal_if err "%s" [ArgError err] ;;;
  (* Setup any global configuration options *)
  emit (EvHandleGlobalFlags cfg) ;;;
  (* Create the API client *)
  let apiConf := loadAPIClientConfig cfg "AgentAccessToken" in
  client <- (emit (EvNewClient apiConf) ;;; ret (api_NewClient apiConf)) ;;
  let uploaderClient := nilUploader in
  let uploaderConfig := uploaderConfigOf cfg in
  let dest := ArtifactUploaderConfig.Destination uploaderConfig in
  let debugHTTP := ArtifactUploaderConfig.DebugHTTP uploaderConfig in
  (* Determine what uploader to use *)
  chosen <-
    (if negb (String.eqb dest EmptyString) then
       made <-
         (if HasPrefix dest "s3://" then
            let conf :=
              S3UploaderConfig.mk dest debugHTTP
                (ArtifactUploadConfig.S3ACL cfg) in
            emit (EvNewS3Uploader conf) ;;; ret (NewS3Uploader conf)
          else if HasPrefix dest "gs://" then
            let conf := GSUploaderConfig.mk dest debugHTTP in
            emit (EvNewGSUploader conf) ;;; ret (NewGSUploader conf)
          else if HasPrefix dest "rt://" then
            let conf := ArtifactoryUploaderConfig.mk dest debugHTTP in
            emit (EvNewArtifactoryUploader conf) ;;;
            ret (NewArtifactoryUploader conf)
          else
            l_Fatal (Sprintf invalidDestinationFormat [ArgString dest]) []) ;;
       l_Info "Uploading to %q, using your agent configuration"
              [ArgString dest] ;;;
       ret made
     else
       let conf := FormUploaderConfig.mk debugHTTP in
       emit (EvNewFormUploader conf) ;;;
       l_Info "Uploading to default Buildkite artifact storage" [] ;;;
       ret (NewFormUploader conf, err)) ;;
  let '(uploaderClient, err) := chosen in
  (* Check if creation caused an error *)
  fatal_if err (Sprintf "Error creating uploader: %v" [ArgError err]) [] ;;;
  (* Setup the uploader and upload the artifacts *)
  result <-
    (emit (EvUpload client uploaderConfig uploaderClient) ;;;
     let r := ArtifactUploader_Upload client uploaderConfig uploaderClient in
     emits (map EvAgent (fst r)) ;;; ret r) ;;
  let err := snd result in
  fatal_if err "Failed to upload artifacts: %s" [ArgError err] ;;;
  (* defer done() *)
  emit EvDone.

(** One run of the process: its exit status and everything it did. *)
Definition run `{External} (c : cli_Context) : Z * list Event :=
  match Action c [] with
  | (Returned _, t) => (0, t)
  | (Exited n, t) => (n, t)
  end.

(** What a trace shows of the routing: the uploader constructors called, in
    order. *)
Inductive Constructed : Type :=
| ByNewS3Uploader (conf : S3UploaderConfig.t)
| ByNewGSUploader (conf : GSUploaderConfig.t)
| ByNewArtifactoryUploader (conf : ArtifactoryUploaderConfig.t)
| ByNewFormUploader (conf : FormUploaderConfig.t).

Definition constructed `{External} (t : list Event) : list Constructed :=
  omap (fun e =>
          match e with
          | EvNewS3Uploader conf => Some (ByNewS3Uploader conf)
          | EvNewGSUploader conf => Some (ByNewGSUploader conf)
          | EvNewArtifactoryUploader conf =>
              Some (ByNewArtifactoryUploader conf)
          | EvNewFormUploader conf => Some (ByNewFormUploader conf)
          | _ => None
          end) t.

(** Events in which files are resolved, uploaded or registered: the call
    into the artifact uploader and everything it does. *)
Definition touchesArtifacts `{External} (e : Event) : bool :=
  match e with
  | EvUpload _ _ _ | EvAgent _ => true
  | _ => false
  end.

(** The uploaders handed to [uploader.Upload]. *)
Definition uploadedWith `{External} (t : list Event) : list Uploader :=
  omap (fun e =>
          match e with
          | EvUpload _ _ u => Some u
          | _ => None
          end) t.

Definition isFatal `{External} (e : Event) : bool :=
  match e with
  | EvFatal _ _ => true
  | _ => false
  end.

(** The fatal log line written when an uploader constructor returned an
    error. *)
Definition isConstructionFatal `{External} (e : Event) : bool :=
  match e with
  | EvFatal format _ => HasPrefix format "Error creating uploader: "
  | _ => false
  end.

(** Modelled from the spec: [cliconfig.Load] is not part of
    [artifact_upload.go].  Section 4.3: an explicit destination argument, if non-empty, is used; otherwise
    the destination supplied by the external configuration value. *)
Definition resolveDestination (argument configured : string) : string :=
  if String.eqb argument EmptyString then configured else argument.

(** A loader that fills [Destination] by that precedence, from what the
    context holds as argument and as configured value. *)
Definition LoadFollowsPrecedence `{External}
    (argument configured : cli_Context -> string) : Prop :=
  forall c cfg,
    ArtifactUploadConfig.Destination (fst (cliconfig_Load c cfg))
    = resolveDestination (argument c) (configured c).

(** ** Package [agent], from its specification

    The artifact uploader behind [uploader.Upload] is not part of this file.
    What follows models it from sections 3 to 7 of the specification, over
    the filesystem and the services it meets, which are the fields of the
    class [Backend]. *)

Module Artifact.
(** Modelled from the spec: the Artifact of section 3. *)
Record t : Type := mk {
  AbsolutePath : string; DisplayPath : string; Size : Z;
  ContentType : string; Checksum : string;
  State : ArtifactState; Metadata : option string
}.

(** Modelled from the spec: an artifact is immutable but for its state and
    its backend metadata. *)
Definition withState (a : t) (st : ArtifactState) (meta : option string)
  : t :=
  mk (AbsolutePath a) (DisplayPath a) (Size a) (ContentType a)
     (Checksum a) st meta.
End Artifact.

(** Modelled from the spec: one path the glob expansion reaches, with what
    section 4.1 needs to know of it: the path as matched under the
    resolution root, the absolute path once every link is resolved, whether
    it is a directory, and whether reaching it went through a symbolic link
    to a directory. *)
Record GlobMatch : Type := mkGlobMatch {
  matchedPath : string; resolvedPath : string;
  isDirectory : bool; throughLinkedDirectory : bool;
  byteSize : Z; checksum : string
}.

(** Modelled from the spec: the result of one upload attempt (section 4.5,
    step 4): stored with the metadata the backend assigned, a transient
    failure, or a failure that is not retried. *)
Inductive AttemptResult : Type :=
| Stored (metadata : string)
| Transient (cause : string)
| Permanent (cause : string).

(** Modelled from the spec: what the artifact uploader meets outside the
    process: the expansion of a glob with links traversed, the
    extension-to-MIME table, the orchestration service (section 6) and the
    chosen backend, and the fixed retry budget. *)
Class Backend : Type := {
  expandGlob : string -> list GlobMatch;
  typeByExtension : string -> string;
  createArtifactBatch : string -> nat -> bool;
  attemptUpload : nat -> nat -> AttemptResult;
  updateArtifactStatus : nat -> ArtifactState -> bool;
  retryBudget : nat
}.

(** Modelled from the spec: the fatal errors of section 7 that the artifact
    uploader can end with. *)
Inductive FatalError : Type :=
| NoFilesMatchedError
| RegistrationError.

Module ContentTypeResolver.
(** Modelled from the spec: section 4.2, a non-empty override wins,
    otherwise the type comes from the extension table. *)
Definition Resolve `{Backend} (path override : string) : string :=
  if String.eqb override EmptyString then typeByExtension path
  else override.
End ContentTypeResolver.

Module PathResolver.
(** Modelled from the spec: keep the first match of each resolved
    absolute path. *)
Fixpoint dedup (seen : gset string) (ms : list GlobMatch)
  : list GlobMatch :=
  match ms with
  | [] => []
  | m :: rest =>
      if decide (resolvedPath m ∈ seen) then dedup seen rest
      else m :: dedup ({[resolvedPath m]} ∪ seen) rest
  end.

(** Modelled from the spec: the files of section 4.1.  Without
    [followSymlinks] nothing reached through a linked directory is kept;
    directories are skipped; with [followSymlinks] the files are
    deduplicated by resolved absolute path. *)
Definition expand `{Backend} (pattern : string) (followSymlinks : bool)
  : list GlobMatch :=
  let reached :=
    if followSymlinks then expandGlob pattern
    else filter (fun m => throughLinkedDirectory m = false)
                (expandGlob pattern) in
  let files := filter (fun m => isDirectory m = false) reached in
  if followSymlinks then dedup ∅ files else files.

(** Modelled from the spec: the artifact of a file, pending, its display
    path the path as matched and its content type from section 4.2. *)
Definition artifactOf `{Backend} (override : string) (m : GlobMatch)
  : Artifact.t :=
  Artifact.mk (resolvedPath m) (matchedPath m) (byteSize m)
    (ContentTypeResolver.Resolve (matchedPath m) override)
    (checksum m) pending None.

(** Modelled from the spec: [Resolve] of section 4.1, which fails with
    [NoFilesMatchedError] when the expansion yields zero files. *)
Definition Resolve `{Backend} (pattern : string) (followSymlinks : bool)
    (override : string) : FatalError + list Artifact.t :=
  match expand pattern followSymlinks with
  | [] => inl NoFilesMatchedError
  | files => inr (map (artifactOf override) files)
  end.
End PathResolver.

Module UploadOrchestrator.
(** Modelled from the spec: the batch result of section 4.5, step 6. *)
Inductive BatchResult : Type :=
| succeeded
| partially_failed (failures : list (Artifact.t * string)).

(** Modelled from the spec: what a run has done so far: the artifacts in
    their terminal states, the failures collected, the states registered
    with the orchestration service by batch index, and the calls made. *)
Record Progress : Type := mkProgress {
  finished : list Artifact.t;
  failures : list (Artifact.t * string);
  registry : gmap nat ArtifactState;
  wire : list AgentEvent
}.

(** Modelled from the spec: step 4, one artifact's attempts.  A transient
    failure is retried while the budget lasts; any other result is
    terminal. *)
Fixpoint uploadWithRetry `{Backend} (index attempt budget : nat)
  : list AgentEvent * (string + string) :=
  match attemptUpload index attempt with
  | Stored meta => ([UploadAttempt index attempt], inl meta)
  | Permanent cause => ([UploadAttempt index attempt], inr cause)
  | Transient cause =>
      match budget with
      | O => ([UploadAttempt index attempt], inr cause)
      | S budget' =>
          let '(calls, r) := uploadWithRetry index (S attempt) budget' in
          (UploadAttempt index attempt :: calls, r)
      end
  end.

(** Modelled from the spec: steps 4 and 5 for the artifact at [index]:
    upload it, then report its terminal state.  A status call the service
    rejects is a [RegistrationError], fatal for this artifact. *)
Definition uploadOne `{Backend} (index : nat) (a : Artifact.t)
    (p : Progress) : Progress :=
  let '(calls, r) := uploadWithRetry index 0 retryBudget in
  match r with
  | inl meta =>
      let calls := calls ++ [UpdateArtifactStatus index uploaded] in
      if updateArtifactStatus index uploaded then
        mkProgress
          (finished p ++ [Artifact.withState a uploaded (Some meta)])
          (failures p)
          (<[index := uploaded]> (registry p))
          (wire p ++ calls)
      else
        let a' := Artifact.withState a failed None in
        mkProgress (finished p ++ [a'])
          (failures p ++ [(a', "RegistrationError"%string)])
          (registry p)
          (wire p ++ calls)
  | inr cause =>
      let calls := calls ++ [UpdateArtifactStatus index failed] in
      let a' := Artifact.withState a failed None in
      mkProgress (finished p ++ [a'])
        (failures p ++ [(a', cause)])
        (if updateArtifactStatus index failed
         then <[index := failed]> (registry p) else registry p)
        (wire p ++ calls)
  end.

(** Modelled from the spec: step 3, each artifact in turn, by index. *)
Fixpoint uploadAll `{Backend} (index : nat) (batch : list Artifact.t)
    (p : Progress) : Progress :=
  match batch with
  | [] => p
  | a :: rest => uploadAll (S index) rest (uploadOne index a p)
  end.

(** Modelled from the spec: step 2, every artifact of the batch gets a
    pending record. *)
Definition pendingRecords (n : nat) : gmap nat ArtifactState :=
  list_to_map (map (fun i => (i, pending)) (seq 0 n)).

(** Modelled from the spec: step 6, the result carries the failures. *)
Definition resultOf (p : Progress) : BatchResult :=
  match failures p with
  | [] => succeeded
  | fl => partially_failed fl
  end.

(** Modelled from the spec: [Run] of section 4.5.  An empty batch and a
    rejected batch registration abort; otherwise every artifact is
    uploaded and reported, and the result is read off the failures. *)
Definition Run `{Backend} (jobID : string) (batch : list Artifact.t)
  : list AgentEvent * (FatalError + BatchResult * Progress) :=
  match batch with
  | [] => ([], inl NoFilesMatchedError)
  | _ =>
      let register := CreateArtifactBatch jobID (length batch) in
      if createArtifactBatch jobID (length batch) then
        let p :=
          uploadAll 0 batch
            (mkProgress [] [] (pendingRecords (length batch)) [register])
        in
        (wire p, inr (resultOf p, p))
      else ([register], inl RegistrationError)
  end.
End UploadOrchestrator.

(** Modelled from the spec: expanding a glob reads the filesystem; the
    calls to the orchestration service and to the backend go over the
    network. *)
Definition isNetworkCall (e : AgentEvent) : bool :=
  match e with
  | GlobResolve _ _ => false
  | _ => true
  end.

(** Modelled from the spec: [ArtifactUploader.Upload], the control flow of
    section 2: resolve the files, then run the batch; the error it returns
    is nil only when the batch succeeded. *)
Definition specUpload `{Backend} (conf : ArtifactUploaderConfig.t)
  : list AgentEvent * error :=
  let pattern := ArtifactUploaderConfig.Paths conf in
  let follow := ArtifactUploaderConfig.FollowSymlinks conf in
  let resolve := GlobResolve pattern follow in
  match PathResolver.Resolve pattern follow
          (ArtifactUploaderConfig.ContentType conf) with
  | inl _ => ([resolve], Some "NoFilesMatchedError"%string)
  | inr batch =>
      let '(calls, r) :=
        UploadOrchestrator.Run (ArtifactUploaderConfig.JobID conf) batch in
      (resolve :: calls,
       match r with
       | inl _ => Some "RegistrationError"%string
       | inr (UploadOrchestrator.succeeded, _) => None
       | inr (UploadOrchestrator.partially_failed _, _) =>
           Some "PerArtifactUploadError"%string
       end)
  end.

(** The command with that artifact uploader behind it. *)
Definition withSpecUpload (E : External) (B : Backend) : External :=
  {| cli_Context := @cli_Context E;
     Uploader := @Uploader E;
     nilUploader := @nilUploader E;
     APIClientConfig := @APIClientConfig E;
     APIClient := @APIClient E;
     cliconfig_Load := @cliconfig_Load E;
     loadAPIClientConfig := @loadAPIClientConfig E;
     api_NewClient := @api_NewClient E;
     NewS3Uploader := @NewS3Uploader E;
     NewGSUploader := @NewGSUploader E;
     NewArtifactoryUploader := @NewArtifactoryUploader E;
     NewFormUploader := @NewFormUploader E;
     ArtifactUploader_Upload := fun _ conf _ => specUpload conf |}.

(** ** The routing, in the specification's words *)

Inductive BackendKind : Type :=
| none | object_storage_A | object_storage_B | artifact_repository.

(** Section 4.3, [Route]: an empty destination is the default backend; a
    non-empty one is classified by literal prefix, [s3://] first, then
    [gs://], then [rt://]; anything else is an invalid destination
    ([None]).  Written with the Standard Library's [String.prefix], to be
    compared with what [Action] does. *)
Definition Route (destination : string) : option BackendKind :=
  if String.eqb destination EmptyString then Some none
  else if String.prefix "s3://" destination then Some object_storage_A
  else if String.prefix "gs://" destination then Some object_storage_B
  else if String.prefix "rt://" destination then Some artifact_repository
  else None.

(** The constructor call that goes with a backend kind, with the
    configuration the command builds for it. *)
Definition expectedConstruction (cfg : ArtifactUploadConfig.t)
    (kind : option BackendKind) : list Constructed :=
  let dest := ArtifactUploadConfig.Destination cfg in
  let debugHTTP := ArtifactUploadConfig.DebugHTTP cfg in
  match kind with
  | Some object_storage_A =>
      [ByNewS3Uploader
         (S3UploaderConfig.mk dest debugHTTP (ArtifactUploadConfig.S3ACL cfg))]
  | Some object_storage_B =>
      [ByNewGSUploader (GSUploaderConfig.mk dest debugHTTP)]
  | Some artifact_repository =>
      [ByNewArtifactoryUploader (ArtifactoryUploaderConfig.mk dest debugHTTP)]
  | Some none => [ByNewFormUploader (FormUploaderConfig.mk debugHTTP)]
  | None => []
  end.

(** What a constructor call returned: its error, and its uploader when the
    error is nil. *)
Definition constructionError `{External} (k : Constructed) : error :=
  match k with
  | ByNewS3Uploader conf => snd (NewS3Uploader conf)
  | ByNewGSUploader conf => snd (NewGSUploader conf)
  | ByNewArtifactoryUploader conf => snd (NewArtifactoryUploader conf)
  | ByNewFormUploader _ => None
  end.

Definition built `{External} (k : Constructed) : option Uploader :=
  match constructionError k with
  | Some _ => None
  | None =>
      Some match k with
           | ByNewS3Uploader conf => fst (NewS3Uploader conf)
           | ByNewGSUploader conf => fst (NewGSUploader conf)
           | ByNewArtifactoryUploader conf => fst (NewArtifactoryUploader conf)
           | ByNewFormUploader conf => NewFormUploader conf
           end
  end.

(** The configuration as loaded, and the loader's error. *)
Definition loadedConfig `{External} (c : cli_Context) : ArtifactUploadConfig.t :=
  fst (cliconfig_Load c ArtifactUploadConfig.zero).

Definition loadError `{External} (c : cli_Context) : error :=
  snd (cliconfig_Load c ArtifactUploadConfig.zero).

(** The text of the invalid-destination diagnostic for a destination. *)
Definition invalidDestinationMessage (destination : string) : string :=
  "Invalid upload destination: '" +:+ destination
  +:+ "'. Only s3://, gs:// or rt:// upload destinations are allowed. Did you forget to surround your artifact upload pattern in double quotes?".

(** ** A concrete world, to run the definitions on *)

Module Demo.
(** A context is the pair of the destination argument and the configured
    destination value; the loader follows the precedence of
    [resolveDestination].  The bucket constructors succeed, the one for
    [gs://] reports missing credentials. *)
Definition world : External :=
  {| cli_Context := string * string;
     Uploader := string;
     nilUploader := "nil";
     APIClientConfig := string;
     APIClient := string;
     cliconfig_Load := fun c _ =>
       (ArtifactUploadConfig.mk "log/*.log"
          (resolveDestination (fst c) (snd c)) "job-1"
          EmptyString "private" false false [] EmptyString
          false "token" "https://agent.example" false true,
        None);
     loadAPIClientConfig := fun cfg _ => ArtifactUploadConfig.Endpoint cfg;
     api_NewClient := fun conf => conf;
     NewS3Uploader := fun _ => ("S3Uploader", None);
     NewGSUploader := fun _ => ("nil", Some "missing credentials");
     NewArtifactoryUploader := fun _ => ("ArtifactoryUploader", None);
     NewFormUploader := fun _ => "FormUploader";
     ArtifactUploader_Upload := fun _ _ _ => ([], None) |}.

(** Under [log/] two links lead to the same log file and a directory is
    matched as well; under [pkg/] there is a directory and a file behind a
    linked directory.  The second artifact's first attempt times out, the
    third artifact is rejected. *)
Definition backend : Backend :=
  {| expandGlob := fun pattern =>
       if String.eqb pattern "log/*.log" then
         [ mkGlobMatch "log/a.log" "/work/log/a.log" false false 10 "c1";
           mkGlobMatch "log/old" "/work/log/old" true false 0 "c0";
           mkGlobMatch "log/l1/b.log" "/data/b.log" false true 20 "c2";
           mkGlobMatch "log/l2/b.log" "/data/b.log" false true 20 "c2";
           mkGlobMatch "log/c.log" "/work/log/c.log" false false 30 "c3" ]
       else if String.eqb pattern "pkg/*" then
         [ mkGlobMatch "pkg/linux" "/work/pkg/linux" true false 0 "c0";
           mkGlobMatch "pkg/latest/agent" "/opt/agent" false true 40 "c4" ]
       else [];
     typeByExtension := fun _ => "text/plain";
     createArtifactBatch := fun _ _ => true;
     attemptUpload := fun index attempt =>
       match index, attempt with
       | 0%nat, _ => Stored "key-a"
       | 1%nat, 0%nat => Transient "timeout"
       | 1%nat, _ => Stored "key-b"
       | _, _ => Permanent "payload too large"
       end;
     updateArtifactStatus := fun _ _ => true;
     retryBudget := 2 |}.

(** The uploader configuration of a run on the logs, links followed, and
    the batch it resolves to. *)
Definition conf : ArtifactUploaderConfig.t :=
  ArtifactUploaderConfig.mk "job-1" "log/*.log" EmptyString EmptyString
    false true.

Definition batch : list Artifact.t :=
  map (@PathResolver.artifactOf backend EmptyString)
      (@PathResolver.expand backend "log/*.log" true).
End Demo.

(** ** The run, stage by stage

    The same run written as plain case analysis on what the collaborators
    return; [run_unfold] below proves that this is what [Action] does. *)

(** From the call of [uploader.Upload] to the end of the process. *)
Definition uploadStage `{External} (cfg : ArtifactUploadConfig.t)
    (t : list Event) (uploaderClient : Uploader) : Z * list Event :=
  let client := api_NewClient (loadAPIClientConfig cfg "AgentAccessToken") in
  let r := ArtifactUploader_Upload client (uploaderConfigOf cfg)
             uploaderClient in
  let t' := t ++ EvUpload client (uploaderConfigOf cfg) uploaderClient
              :: map EvAgent (fst r) in
  match snd r with
  | Some e =>
      (1, t' ++ [EvFatal "Failed to upload artifacts: %s"
                   [ArgError (Some e)]])
  | None => (0, t' ++ [EvDone])
  end.

(** From the result of an uploader constructor on. *)
Definition constructionStage `{External} (cfg : ArtifactUploadConfig.t)
    (t : list Event) (made : Uploader * error) : Z * list Event :=
  let t := t ++ [EvInfo "Uploading to %q, using your agent configuration"
                   [ArgString (ArtifactUploadConfig.Destination cfg)]] in
  match snd made with
  | Some e => (1, t ++ [EvFatal ("Error creating uploader: " +:+ e) []])
  | None => uploadStage cfg t (fst made)
  end.

Definition stages `{External} (c : cli_Context) : Z * list Event :=
  let cfg := loadedConfig c in
  let dest := ArtifactUploadConfig.Destination cfg in
  let debugHTTP := ArtifactUploadConfig.DebugHTTP cfg in
  match loadError c with
  | Some e => (1, [EvLoad c; EvFatal "%s" [ArgError (Some e)]])
  | None =>
      let t := [EvLoad c; EvHandleGlobalFlags cfg;
                EvNewClient (loadAPIClientConfig cfg "AgentAccessToken")] in
      if String.eqb dest EmptyString then
        let conf := FormUploaderConfig.mk debugHTTP in
        uploadStage cfg
          (t ++ [EvNewFormUploader conf;
                 EvInfo "Uploading to default Buildkite artifact storage" []])
          (NewFormUploader conf)
      else if HasPrefix dest "s3://" then
        let conf := S3UploaderConfig.mk dest debugHTTP
                      (ArtifactUploadConfig.S3ACL cfg) in
        constructionStage cfg (t ++ [EvNewS3Uploader conf])
          (NewS3Uploader conf)
      else if HasPrefix dest "gs://" then
        let conf := GSUploaderConfig.mk dest debugHTTP in
        constructionStage cfg (t ++ [EvNewGSUploader conf])
          (NewGSUploader conf)
      else if HasPrefix dest "rt://" then
        let conf := ArtifactoryUploaderConfig.mk dest debugHTTP in
        constructionStage cfg (t ++ [EvNewArtifactoryUploader conf])
          (NewArtifactoryUploader conf)
      else (1, t ++ [EvFatal (invalidDestinationMessage dest) []])
  end.

(** The destination the command routes on. *)
Definition loadedDestination `{External} (c : cli_Context) : string :=
  ArtifactUploadConfig.Destination (loadedConfig c).

(** The configuration the command builds for the form uploader. *)
Definition formConfig `{External} (c : cli_Context) : FormUploaderConfig.t :=
  FormUploaderConfig.mk (ArtifactUploadConfig.DebugHTTP (loadedConfig c)).

(** What holds of the progress of a run once the first [index] artifacts
    are done: each has one terminal state, the failures collected are the
    failed artifacts in order, and every artifact that ended [uploaded] is
    registered as uploaded. *)
Definition progressed (index : nat) (p : UploadOrchestrator.Progress)
  : Prop :=
  length (UploadOrchestrator.finished p) = index
  /\ Forall (fun a => Artifact.State a = uploaded
                      \/ Artifact.State a = failed)
            (UploadOrchestrator.finished p)
  /\ map fst (UploadOrchestrator.failures p)
     = filter (fun a => Artifact.State a = failed)
              (UploadOrchestrator.finished p)
  /\ forall (j : nat) (a : Artifact.t),
       UploadOrchestrator.finished p !! j = Some a ->
       Artifact.State a = uploaded ->
       UploadOrchestrator.registry p !! j = Some uploaded.

(** Modelled from the spec: section 4.5, step 4, as a property of the
    attempts: the artifact at [index] is stored with [meta] when, within the
    retry budget, every attempt before some attempt failed transiently and
    that attempt stored it. *)
Definition StoredAt `{Backend} (index : nat) (meta : string) : Prop :=
  exists n : nat,
    (n <= retryBudget)%nat
    /\ (forall i : nat, (i < n)%nat ->
          exists c, attemptUpload index i = Transient c)
    /\ attemptUpload index n = Stored meta.

(** Modelled from the spec: section 4.5, step 4: the upload of the artifact
    at [index] fails with [cause] when, after transient failures only, an
    attempt within the budget failed for good with [cause], or the last
    attempt the budget allows failed transiently with [cause]. *)
Definition FailedWith `{Backend} (index : nat) (cause : string) : Prop :=
  exists n : nat,
    (n <= retryBudget)%nat
    /\ (forall i : nat, (i < n)%nat ->
          exists c, attemptUpload index i = Transient c)
    /\ (attemptUpload index n = Permanent cause
        \/ (attemptUpload index n = Transient cause /\ n = retryBudget)).

(** Modelled from the spec: the terminal error of the artifact at [index]
    (sections 4.5 and 7): the cause its upload failed with, or a
    [RegistrationError] when it was stored and the service rejected the
    report of it. *)
Definition TerminalError `{Backend} (index : nat) (cause : string) : Prop :=
  FailedWith index cause
  \/ (cause = "RegistrationError"%string
      /\ exists meta,
           StoredAt index meta
           /\ updateArtifactStatus index uploaded = false).

(** The batch indices, from [index] on, of the artifacts that ended
    [failed], in order. *)
Fixpoint failedFrom (index : nat) (done : list Artifact.t) : list nat :=
  match done with
  | [] => []
  | a :: rest =>
      if decide (Artifact.State a = failed)
      then index :: failedFrom (S index) rest
      else failedFrom (S index) rest
  end.

(** What holds of the progress of a run on the artifacts [processed] so
    far: each finished artifact is the processed one but for its state and
    metadata; one that ended [uploaded] was stored, carries the metadata it
    was stored with, and its report was accepted; and the errors collected
    are, failed index by failed index, terminal errors of those indices. *)
Definition accounted `{Backend} (processed : list Artifact.t)
    (p : UploadOrchestrator.Progress) : Prop :=
  Forall2 (fun a a' =>
             a' = Artifact.withState a (Artifact.State a')
                    (Artifact.Metadata a'))
          processed (UploadOrchestrator.finished p)
  /\ (forall (j : nat) (a' : Artifact.t),
        UploadOrchestrator.finished p !! j = Some a' ->
        Artifact.State a' = uploaded ->
        exists meta,
          StoredAt j meta
          /\ Artifact.Metadata a' = Some meta
          /\ updateArtifactStatus j uploaded = true)
  /\ Forall2 (fun j cause => TerminalError j cause)
       (failedFrom 0 (UploadOrchestrator.finished p))
       (map snd (UploadOrchestrator.failures p)).

(** ** What the operator reads *)

(** What the logger prints for a fatal call.  The logger is not part of
    [artifact_upload.go]; the calls at lines 133 and 196 hand [l.Fatal] a
    printf format and its operands, so what it prints is
    [fmt.Sprintf(format, v...)].  Exact for formats whose verbs are [%v] and
    [%s]. *)
Definition printed `{External} (e : Event) : option string :=
  match e with
  | EvFatal format v => Some (Sprintf format v)
  | _ => None
  end.

(** [strings.Contains]: [substr] occurs somewhere in [s]. *)
Fixpoint Contains (s substr : string) : bool :=
  HasPrefix s substr
  || match s with
     | EmptyString => false
     | String _ s' => Contains s' substr
     end.

(** No byte of the string is a percent sign. *)
Fixpoint percentFree (s : string) : bool :=
  match s with
  | EmptyString => true
  | String c s' => negb (Ascii.eqb c "%") && percentFree s'
  end.

(** ** The shapes a run can take *)

(** The event a constructor call leaves in the trace. *)
Definition constructorEvent `{External} (k : Constructed) : Event :=
  match k with
  | ByNewS3Uploader conf => EvNewS3Uploader conf
  | ByNewGSUploader conf => EvNewGSUploader conf
  | ByNewArtifactoryUploader conf => EvNewArtifactoryUploader conf
  | ByNewFormUploader conf => EvNewFormUploader conf
  end.

(** The [l.Info] line that follows a constructor call. *)
Definition infoLine `{External} (cfg : ArtifactUploadConfig.t)
    (k : Constructed) : Event :=
  match k with
  | ByNewFormUploader _ =>
      EvInfo "Uploading to default Buildkite artifact storage" []
  | _ =>
      EvInfo "Uploading to %q, using your agent configuration"
        [ArgString (ArtifactUploadConfig.Destination cfg)]
  end.

(** What every run does once the configuration is loaded: the global flags
    and the API client. *)
Definition preamble `{External} (c : cli_Context) : list Event :=
  [EvLoad c; EvHandleGlobalFlags (loadedConfig c);
   EvNewClient (loadAPIClientConfig (loadedConfig c) "AgentAccessToken")].

(** The API client and the uploader configuration of a run. *)
Definition clientOf `{External} (c : cli_Context) : APIClient :=
  api_NewClient (loadAPIClientConfig (loadedConfig c) "AgentAccessToken").

Definition isInfo `{External} (e : Event) : bool :=
  match e with
  | EvInfo _ _ => true
  | _ => false
  end.

(** The five ways through [Action], each with the exit status and the
    trace it leaves: the loader failed; the destination is invalid; the
    constructor returned an error; the upload returned an error; the upload
    went through. *)
Inductive RunShape `{External} (c : cli_Context) : Z * list Event -> Prop :=
| LoadFailed (e : string) :
    loadError c = Some e ->
    RunShape c (1, [EvLoad c; EvFatal "%s" [ArgError (Some e)]])
| DestinationInvalid :
    loadError c = None ->
    Route (loadedDestination c) = None ->
    RunShape c
      (1, preamble c
          ++ [EvFatal (invalidDestinationMessage (loadedDestination c)) []])
| ConstructionFailed (k : Constructed) (e : string) :
    loadError c = None ->
    expectedConstruction (loadedConfig c) (Route (loadedDestination c)) = [k] ->
    constructionError k = Some e ->
    RunShape c
      (1, preamble c
          ++ [constructorEvent k; infoLine (loadedConfig c) k;
              EvFatal ("Error creating uploader: " +:+ e) []])
| UploadFailed (k : Constructed) (u : Uploader) (calls : list AgentEvent)
    (e : string) :
    loadError c = None ->
    expectedConstruction (loadedConfig c) (Route (loadedDestination c)) = [k] ->
    built k = Some u ->
    ArtifactUploader_Upload (clientOf c) (uploaderConfigOf (loadedConfig c)) u
    = (calls, Some e) ->
    RunShape c
      (1, preamble c
          ++ [constructorEvent k; infoLine (loadedConfig c) k;
              EvUpload (clientOf c) (uploaderConfigOf (loadedConfig c)) u]
          ++ map EvAgent calls
          ++ [EvFatal "Failed to upload artifacts: %s" [ArgError (Some e)]])
| Uploaded (k : Constructed) (u : Uploader) (calls : list AgentEvent) :
    loadError c = None ->
    expectedConstruction (loadedConfig c) (Route (loadedDestination c)) = [k] ->
    built k = Some u ->
    ArtifactUploader_Upload (clientOf c) (uploaderConfigOf (loadedConfig c)) u
    = (calls, None) ->
    RunShape c
      (0, preamble c
          ++ [constructorEvent k; infoLine (loadedConfig c) k;
              EvUpload (clientOf c) (uploaderConfigOf (loadedConfig c)) u]
          ++ map EvAgent calls ++ [EvDone]).

(** ** A second world, with failures *)

Module Cases.
(** A context is the list of positional arguments.  The loader insists on
    the upload paths; the constructor for [rt://] finds no server
    configured; the upload of [tmp/*] fails for its one artifact. *)
Definition world : External :=
  {| cli_Context := list string;
     Uploader := string;
     nilUploader := "nil";
     APIClientConfig := string;
     APIClient := string;
     cliconfig_Load := fun args cfg =>
       match args with
       | [] => (cfg, Some "Missing upload paths")
       | paths :: rest =>
           (ArtifactUploadConfig.mk paths (List.hd EmptyString rest) "job-7"
              "text/plain" EmptyString false false [] EmptyString
              true "token" "https://agent.example" false true,
            None)
       end;
     loadAPIClientConfig := fun cfg _ => ArtifactUploadConfig.Endpoint cfg;
     api_NewClient := fun conf => conf;
     NewS3Uploader := fun _ => ("S3Uploader", None);
     NewGSUploader := fun _ => ("GSUploader", None);
     NewArtifactoryUploader := fun _ =>
       ("nil", Some "no Artifactory server configured");
     NewFormUploader := fun _ => "FormUploader";
     ArtifactUploader_Upload := fun _ conf _ =>
       if String.eqb (ArtifactUploaderConfig.Paths conf) "tmp/*" then
         ([GlobResolve "tmp/*" true; CreateArtifactBatch "job-7" 1;
           UploadAttempt 0 0; UpdateArtifactStatus 0 failed],
          Some "1 artifact failed")
       else
         ([GlobResolve (ArtifactUploaderConfig.Paths conf) true;
           CreateArtifactBatch "job-7" 1;
           UploadAttempt 0 0; UpdateArtifactStatus 0 uploaded],
          None) |}.
End Cases.

(** * Properties *)

(** ** The definitions on concrete inputs *)

Section Examples.

#[local] Existing Instance Demo.world.
#[local] Existing Instance Demo.backend.

Example HasPrefix_s3 : HasPrefix "s3://bucket/prefix" "s3://" = true.
Proof. reflexivity. Qed.

Example HasPrefix_is_case_sensitive : HasPrefix "S3://bucket" "s3://" = false.
Proof. reflexivity. Qed.

Example HasPrefix_short : HasPrefix "s3:/" "s3://" = false.
Proof. reflexivity. Qed.

Example Sprintf_quotes_destination :
  Sprintf invalidDestinationFormat [ArgString "ftp://host/path"]
  = "Invalid upload destination: 'ftp://host/path'. Only s3://, gs:// or rt:// upload destinations are allowed. Did you forget to surround your artifact upload pattern in double quotes?".
Proof. reflexivity. Qed.

Example run_s3_destination :
  @run Demo.world ("s3://bucket/prefix", EmptyString)
  = (0,
     [EvLoad ("s3://bucket/prefix", EmptyString);
      EvHandleGlobalFlags
        (@loadedConfig Demo.world ("s3://bucket/prefix", EmptyString));
      EvNewClient "https://agent.example";
      EvNewS3Uploader
        (S3UploaderConfig.mk "s3://bucket/prefix" false "private");
      EvInfo "Uploading to %q, using your agent configuration"
        [ArgString "s3://bucket/prefix"];
      EvUpload "https://agent.example"
        (ArtifactUploaderConfig.mk "job-1" "log/*.log" "s3://bucket/prefix"
           EmptyString false true)
        "S3Uploader";
      EvDone]).
Proof. reflexivity. Qed.

Example run_ftp_destination :
  @run Demo.world ("ftp://host/path", EmptyString)
  = (1,
     [EvLoad ("ftp://host/path", EmptyString);
      EvHandleGlobalFlags
        (@loadedConfig Demo.world ("ftp://host/path", EmptyString));
      EvNewClient "https://agent.example";
      EvFatal (invalidDestinationMessage "ftp://host/path") []]).
Proof. reflexivity. Qed.

Example run_configured_destination :
  @constructed Demo.world
    (snd (@run Demo.world (EmptyString, "rt://repo/job")))
  = [ByNewArtifactoryUploader
       (ArtifactoryUploaderConfig.mk "rt://repo/job" false)].
Proof. reflexivity. Qed.

Example resolve_follows_links :
  map Artifact.DisplayPath Demo.batch
  = ["log/a.log"; "log/l1/b.log"; "log/c.log"].
Proof. reflexivity. Qed.

Example resolve_skips_linked_directories :
  map resolvedPath (@PathResolver.expand Demo.backend "log/*.log" false)
  = ["/work/log/a.log"; "/work/log/c.log"].
Proof. reflexivity. Qed.

Example upload_of_the_logs :
  @specUpload Demo.backend Demo.conf
  = ([GlobResolve "log/*.log" true; CreateArtifactBatch "job-1" 3;
      UploadAttempt 0 0; UpdateArtifactStatus 0 uploaded;
      UploadAttempt 1 0; UploadAttempt 1 1; UpdateArtifactStatus 1 uploaded;
      UploadAttempt 2 0; UpdateArtifactStatus 2 failed],
     Some "PerArtifactUploadError").
Proof. reflexivity. Qed.

End Examples.

(** ** Prefixes *)

Lemma substring_prefix_length (p s : string) :
  substring 0 (String.length p) s = p ->
  (String.length p <= String.length s)%nat.
Proof.
  revert s. induction p as [|a p IH]; intros s Hs; simpl in *; [lia|].
  destruct s as [|b s]; [discriminate|].
  simpl in *. injection Hs as _ Hs. apply IH in Hs. lia.
Qed.

(** Go's [strings.HasPrefix] is the Standard Library's [String.prefix]. *)
Lemma HasPrefix_prefix (s p : string) : HasPrefix s p = String.prefix p s.
Proof.
  unfold HasPrefix.
  destruct (String.prefix p s) eqn:Hp.
  - apply prefix_correct in Hp.
    apply andb_true_intro. split.
    + apply Nat.leb_le. by apply substring_prefix_length.
    + by apply String.eqb_eq.
  - apply andb_false_iff. right. apply String.eqb_neq. intros Hs.
    apply prefix_correct in Hs. congruence.
Qed.

(** A literal prefix: the string is the prefix followed by something. *)
Lemma HasPrefix_iff (s p : string) :
  HasPrefix s p = true <-> exists rest, s = p +:+ rest.
Proof.
  rewrite HasPrefix_prefix. revert s.
  induction p as [|a p IH]; intros s; simpl.
  - split; [intros _; by exists s|]. by destruct s.
  - destruct s as [|b s].
    + split; [discriminate|]. intros [rest Hr]. discriminate.
    + simpl. destruct (ascii_dec a b) as [Heq|Hne].
      * subst b. split.
        -- intros Hp. apply IH in Hp as [rest Hr]. exists rest.
           by rewrite Hr.
        -- intros [rest Hr]. apply IH. exists rest. by injection Hr.
      * split; [discriminate|]. intros [rest Hr]. injection Hr as Hb _.
        congruence.
Qed.

(** ** The command *)

Lemma eqb_empty_false (s : string) :
  s <> EmptyString -> String.eqb s EmptyString = false.
Proof. intros Hs. by apply String.eqb_neq. Qed.

Lemma Sprintf_invalidDestination (dest : string) :
  Sprintf invalidDestinationFormat [ArgString dest]
  = invalidDestinationMessage dest.
Proof. reflexivity. Qed.

Lemma Route_nonempty (dest : string) :
  dest <> EmptyString ->
  Route dest =
    if HasPrefix dest "s3://" then Some object_storage_A
    else if HasPrefix dest "gs://" then Some object_storage_B
    else if HasPrefix dest "rt://" then Some artifact_repository
    else None.
Proof.
  intros Hd. unfold Route. rewrite (eqb_empty_false _ Hd).
  by rewrite !HasPrefix_prefix.
Qed.

Lemma append_empty_r (s : string) : s +:+ EmptyString = s.
Proof.
  induction s as [|a s IH]; [reflexivity|].
  change (String a (s +:+ EmptyString) = String a s). by rewrite IH.
Qed.

Lemma Sprintf_constructionError (e : string) :
  Sprintf "Error creating uploader: %v" [ArgError (Some e)]
  = "Error creating uploader: " +:+ e.
Proof.
  change (Sprintf "Error creating uploader: %v" [ArgError (Some e)])
    with ("Error creating uploader: " +:+ (e +:+ EmptyString)).
  by rewrite append_empty_r.
Qed.

Lemma run_unfold `{External} (c : cli_Context) : run c = stages c.
Proof.
  unfold stages, loadedConfig, loadError, run, Action.
  unfold bind at 1. unfold bind at 1. unfold emit at 1. unfold ret at 1.
  destruct (cliconfig_Load c ArtifactUploadConfig.zero) as [cfg [e|]];
    [reflexivity|].
  cbn [fst snd fatal_if app].
  unfold bind at 1. unfold ret at 1.
  unfold bind at 1. unfold emit at 1. cbn [app].
  unfold bind at 1. unfold bind at 1. unfold emit at 1. unfold ret at 1.
  cbn [app].
  change (ArtifactUploaderConfig.Destination (uploaderConfigOf cfg))
    with (ArtifactUploadConfig.Destination cfg).
  change (ArtifactUploaderConfig.DebugHTTP (uploaderConfigOf cfg))
    with (ArtifactUploadConfig.DebugHTTP cfg).
  unfold bind at 1.
  destruct (String.eqb (ArtifactUploadConfig.Destination cfg) EmptyString);
    cbn [negb].
  - unfold l_Info; unfold bind, emit, emits, ret, fatal_if, uploadStage;
      simpl.
    destruct (ArtifactUploader_Upload _ _ _) as [calls [e|]]; simpl;
      rewrite <- ?app_assoc; reflexivity.
  - unfold bind at 1.
    destruct (HasPrefix _ "s3://").
    { unfold constructionStage, uploadStage.
      unfold l_Info; unfold bind, emit, emits, l_Fatal, ret, fatal_if.
      cbn [app].
      destruct (NewS3Uploader _) as [u [e|]];
        [cbv beta iota zeta; by rewrite Sprintf_constructionError|]. cbn [fst snd].
      destruct (ArtifactUploader_Upload _ _ _) as [calls [e|]]; simpl;
        rewrite <- ?app_assoc; reflexivity. }
    destruct (HasPrefix _ "gs://").
    { unfold constructionStage, uploadStage.
      unfold l_Info; unfold bind, emit, emits, l_Fatal, ret, fatal_if.
      cbn [app].
      destruct (NewGSUploader _) as [u [e|]];
        [cbv beta iota zeta; by rewrite Sprintf_constructionError|]. cbn [fst snd].
      destruct (ArtifactUploader_Upload _ _ _) as [calls [e|]]; simpl;
        rewrite <- ?app_assoc; reflexivity. }
    destruct (HasPrefix _ "rt://").
    { unfold constructionStage, uploadStage.
      unfold l_Info; unfold bind, emit, emits, l_Fatal, ret, fatal_if.
      cbn [app].
      destruct (NewArtifactoryUploader _) as [u [e|]];
        [cbv beta iota zeta; by rewrite Sprintf_constructionError|].
      cbn [fst snd].
      destruct (ArtifactUploader_Upload _ _ _) as [calls [e|]]; simpl;
        rewrite <- ?app_assoc; reflexivity. }
    unfold l_Fatal. rewrite Sprintf_invalidDestination. reflexivity.
Qed.

(** *** What the stages add to a trace *)

Lemma constructed_app `{External} (t1 t2 : list Event) :
  constructed (t1 ++ t2) = constructed t1 ++ constructed t2.
Proof. apply omap_app. Qed.

Lemma uploadedWith_app `{External} (t1 t2 : list Event) :
  uploadedWith (t1 ++ t2) = uploadedWith t1 ++ uploadedWith t2.
Proof. apply omap_app. Qed.

Lemma constructed_agent `{External} (calls : list AgentEvent) :
  constructed (map EvAgent calls) = [].
Proof. induction calls; simpl; auto. Qed.

Lemma uploadedWith_agent `{External} (calls : list AgentEvent) :
  uploadedWith (map EvAgent calls) = [].
Proof. induction calls; simpl; auto. Qed.

Lemma uploadStage_trace `{External} cfg (t : list Event) u :
  exists calls ending,
    snd (uploadStage cfg t u)
    = t ++ EvUpload (api_NewClient
                       (loadAPIClientConfig cfg "AgentAccessToken"))
              (uploaderConfigOf cfg) u
        :: map EvAgent calls ++ [ending]
    /\ constructed [ending] = [] /\ uploadedWith [ending] = []
    /\ isConstructionFatal ending = false.
Proof.
  unfold uploadStage.
  destruct (ArtifactUploader_Upload _ _ _) as [calls [e|]]; simpl;
    eexists calls, _; (split; [by rewrite <- app_assoc|done]).
Qed.

Lemma constructed_uploadStage `{External} cfg (t : list Event) u :
  constructed (snd (uploadStage cfg t u)) = constructed t.
Proof.
  destruct (uploadStage_trace cfg t u) as (calls & ending & -> & Hc & _).
  rewrite constructed_app. change (EvUpload ?a ?b ?d :: ?l)
    with ([EvUpload a b d] ++ l).
  rewrite !constructed_app, constructed_agent, Hc. simpl.
  by rewrite app_nil_r.
Qed.

Lemma uploadedWith_uploadStage `{External} cfg (t : list Event) u :
  uploadedWith (snd (uploadStage cfg t u)) = uploadedWith t ++ [u].
Proof.
  destruct (uploadStage_trace cfg t u) as (calls & ending & -> & _ & Hu & _).
  rewrite uploadedWith_app. change (EvUpload ?a ?b ?d :: ?l)
    with ([EvUpload a b d] ++ l).
  by rewrite !uploadedWith_app, uploadedWith_agent, Hu.
Qed.

Lemma constructed_constructionStage `{External} cfg (t : list Event) made :
  constructed (snd (constructionStage cfg t made)) = constructed t.
Proof.
  unfold constructionStage. destruct (snd made); simpl.
  - rewrite !constructed_app. simpl. by rewrite !app_nil_r.
  - rewrite constructed_uploadStage, constructed_app. simpl.
    by rewrite app_nil_r.
Qed.

Lemma uploadedWith_constructionStage `{External} cfg (t : list Event) made :
  uploadedWith (snd (constructionStage cfg t made))
  = uploadedWith t ++ match snd made with
                      | Some _ => []
                      | None => [fst made]
                      end.
Proof.
  unfold constructionStage. destruct (snd made); simpl.
  - rewrite !uploadedWith_app. simpl. by rewrite !app_nil_r.
  - rewrite uploadedWith_uploadStage, uploadedWith_app. simpl.
    by rewrite app_nil_r.
Qed.

(** The constructor called in a run is the one [Route] names. *)
Lemma constructed_run `{External} (c : cli_Context) :
  loadError c = None ->
  constructed (snd (run c))
  = expectedConstruction (loadedConfig c)
      (Route (ArtifactUploadConfig.Destination (loadedConfig c))).
Proof.
  intros Hload. rewrite run_unfold. unfold stages. rewrite Hload.
  destruct (String.eqb _ EmptyString) eqn:Hd.
  - rewrite constructed_uploadStage. unfold Route. by rewrite Hd.
  - apply String.eqb_neq in Hd. rewrite (Route_nonempty _ Hd).
    destruct (HasPrefix _ "s3://");
      [by rewrite constructed_constructionStage|].
    destruct (HasPrefix _ "gs://");
      [by rewrite constructed_constructionStage|].
    destruct (HasPrefix _ "rt://");
      [by rewrite constructed_constructionStage|].
    reflexivity.
Qed.

(** Whatever the run, the uploader handed to [Upload] is the one the
    constructor called in that run returned, and there is one only when the
    constructor's error was nil. *)
Lemma uploadedWith_built `{External} (c : cli_Context) :
  uploadedWith (snd (run c)) = omap built (constructed (snd (run c))).
Proof.
  rewrite run_unfold. unfold stages.
  destruct (loadError c); [reflexivity|].
  destruct (String.eqb _ EmptyString).
  { by rewrite constructed_uploadStage, uploadedWith_uploadStage. }
  destruct (HasPrefix _ "s3://").
  { rewrite constructed_constructionStage, uploadedWith_constructionStage.
    simpl. unfold built. simpl. by destruct (snd (NewS3Uploader _)). }
  destruct (HasPrefix _ "gs://").
  { rewrite constructed_constructionStage, uploadedWith_constructionStage.
    simpl. unfold built. simpl. by destruct (snd (NewGSUploader _)). }
  destruct (HasPrefix _ "rt://"); [|reflexivity].
  rewrite constructed_constructionStage, uploadedWith_constructionStage.
  simpl. unfold built. simpl. by destruct (snd (NewArtifactoryUploader _)).
Qed.

(** The run on a destination that is not empty and has none of the three
    prefixes. *)
Lemma run_invalid_destination `{External} (c : cli_Context) :
  let dest := ArtifactUploadConfig.Destination (loadedConfig c) in
  loadError c = None ->
  dest <> EmptyString ->
  (forall rest, dest <> "s3://" +:+ rest) ->
  (forall rest, dest <> "gs://" +:+ rest) ->
  (forall rest, dest <> "rt://" +:+ rest) ->
  run c = (1, [EvLoad c; EvHandleGlobalFlags (loadedConfig c);
               EvNewClient
                 (loadAPIClientConfig (loadedConfig c) "AgentAccessToken");
               EvFatal (invalidDestinationMessage dest) []]).
Proof.
  intros dest Hload Hd Hs3 Hgs Hrt. rewrite run_unfold. unfold stages.
  rewrite Hload. fold dest. rewrite (eqb_empty_false _ Hd).
  assert (Hno : forall p, (forall rest, dest <> p +:+ rest) ->
                          HasPrefix dest p = false).
  { intros p Hp. destruct (HasPrefix dest p) eqn:E; [|done].
    apply HasPrefix_iff in E as [rest Hr]. by destruct (Hp rest). }
  by rewrite (Hno _ Hs3), (Hno _ Hgs), (Hno _ Hrt).
Qed.

Lemma Forall_agent `{External} (P : Event -> Prop) (calls : list AgentEvent) :
  (forall e, P (EvAgent e)) -> Forall P (map EvAgent calls).
Proof. intros HP. induction calls; simpl; constructor; auto. Qed.

Lemma uploadStage_no_constructionFatal `{External} cfg (t : list Event) u :
  Forall (fun e => isConstructionFatal e = false) t ->
  Forall (fun e => isConstructionFatal e = false)
         (snd (uploadStage cfg t u)).
Proof.
  intros Ht.
  destruct (uploadStage_trace cfg t u) as (calls & ending & -> & _ & _ & He).
  apply Forall_app. split; [done|]. constructor; [done|].
  apply Forall_app. split; [by apply Forall_agent|]. by constructor.
Qed.

Lemma Route_s3 (dest : string) :
  Route dest = Some object_storage_A <-> exists rest, dest = "s3://" +:+ rest.
Proof.
  rewrite <- HasPrefix_iff, HasPrefix_prefix. unfold Route.
  destruct (String.eqb dest EmptyString) eqn:Hd.
  { apply String.eqb_eq in Hd. by subst dest. }
  destruct (String.prefix "s3://" dest); [done|].
  by destruct (String.prefix "gs://" dest), (String.prefix "rt://" dest).
Qed.

Lemma Route_gs (dest : string) :
  Route dest = Some object_storage_B <-> exists rest, dest = "gs://" +:+ rest.
Proof.
  split.
  - intros HR. apply HasPrefix_iff. rewrite HasPrefix_prefix.
    unfold Route in HR.
    destruct (String.eqb dest EmptyString); [done|].
    destruct (String.prefix "s3://" dest); [done|].
    destruct (String.prefix "gs://" dest); [done|].
    by destruct (String.prefix "rt://" dest).
  - intros [rest ->]. rewrite Route_nonempty by discriminate.
    change (HasPrefix ("gs://" +:+ rest) "s3://") with false.
    by rewrite (proj2 (HasPrefix_iff _ "gs://")); [|exists rest].
Qed.

Lemma Route_rt (dest : string) :
  Route dest = Some artifact_repository
  <-> exists rest, dest = "rt://" +:+ rest.
Proof.
  split.
  - intros HR. apply HasPrefix_iff. rewrite HasPrefix_prefix.
    unfold Route in HR.
    destruct (String.eqb dest EmptyString); [done|].
    destruct (String.prefix "s3://" dest); [done|].
    destruct (String.prefix "gs://" dest); [done|].
    by destruct (String.prefix "rt://" dest).
  - intros [rest ->]. rewrite Route_nonempty by discriminate.
    change (HasPrefix ("rt://" +:+ rest) "s3://") with false.
    change (HasPrefix ("rt://" +:+ rest) "gs://") with false.
    by rewrite (proj2 (HasPrefix_iff _ "rt://")); [|exists rest].
Qed.

Lemma Route_default (dest : string) :
  Route dest = Some none <-> dest = EmptyString.
Proof.
  unfold Route. destruct (String.eqb dest EmptyString) eqn:Hd.
  - apply String.eqb_eq in Hd. done.
  - apply String.eqb_neq in Hd.
    by destruct (String.prefix "s3://" dest), (String.prefix "gs://" dest),
      (String.prefix "rt://" dest).
Qed.

(** ** The claims about the command *)

(** C1: for a non-empty destination the backend is picked by literal
    prefix, [s3://] first, then [gs://], then [rt://].  The constructor the
    run calls is the one that goes with [Route] of the destination, with the
    destination in its configuration; [Route] answers the first kind exactly
    for the strings that begin with [s3://], the second for those that begin
    with [gs://], the third for those that begin with [rt://], and never the
    default for a non-empty string; and the uploader handed to the upload is
    the one that constructor returned. *)
Theorem C1_backend_by_literal_prefix `{External} (c : cli_Context) :
  loadError c = None ->
  loadedDestination c <> EmptyString ->
  constructed (snd (run c))
    = expectedConstruction (loadedConfig c) (Route (loadedDestination c))
  /\ (Route (loadedDestination c) = Some object_storage_A
      <-> exists rest, loadedDestination c = "s3://" +:+ rest)
  /\ (Route (loadedDestination c) = Some object_storage_B
      <-> exists rest, loadedDestination c = "gs://" +:+ rest)
  /\ (Route (loadedDestination c) = Some artifact_repository
      <-> exists rest, loadedDestination c = "rt://" +:+ rest)
  /\ Route (loadedDestination c) <> Some none
  /\ uploadedWith (snd (run c)) = omap built (constructed (snd (run c))).
Proof.
  intros Hload Hd. split; [by apply constructed_run|].
  split; [apply Route_s3|]. split; [apply Route_gs|].
  split; [apply Route_rt|]. split; [|apply uploadedWith_built].
  by rewrite Route_default.
Qed.

Lemma C1_backend_by_literal_prefix_witness :
  @loadError Demo.world ("s3://bucket/prefix", EmptyString) = None
  /\ @loadedDestination Demo.world ("s3://bucket/prefix", EmptyString)
     <> EmptyString
  /\ @constructed Demo.world
       (snd (@run Demo.world ("s3://bucket/prefix", EmptyString)))
     = [ByNewS3Uploader
          (S3UploaderConfig.mk "s3://bucket/prefix" false "private")].
Proof.
  split; [reflexivity|]. split; [discriminate|].
  destruct (@C1_backend_by_literal_prefix Demo.world
              ("s3://bucket/prefix", EmptyString)) as [Hc _];
    [reflexivity|discriminate|].
  rewrite Hc. reflexivity.
Defined.

(** The fatal call on an invalid destination: a non-empty destination that
    begins with none of [s3://], [gs://], [rt://] ends the run with exit
    status 1, and the last thing the process does is the fatal log call
    whose first argument is the text that [fmt.Sprintf] built: it quotes the
    destination and asks whether the pattern was left unquoted. *)
Lemma invalid_destination_fatal_call `{External} (c : cli_Context) :
  loadError c = None ->
  loadedDestination c <> EmptyString ->
  (forall rest, loadedDestination c <> "s3://" +:+ rest) ->
  (forall rest, loadedDestination c <> "gs://" +:+ rest) ->
  (forall rest, loadedDestination c <> "rt://" +:+ rest) ->
  fst (run c) = 1
  /\ last (snd (run c))
     = Some (EvFatal
               ("Invalid upload destination: '" +:+ loadedDestination c
                +:+ "'. Only s3://, gs:// or rt:// upload destinations are allowed. Did you forget to surround your artifact upload pattern in double quotes?")
               []).
Proof.
  intros Hload Hd Hs3 Hgs Hrt.
  by rewrite (run_invalid_destination c Hload Hd Hs3 Hgs Hrt).
Qed.

Lemma percentFree_append (a b : string) :
  percentFree (a +:+ b) = percentFree a && percentFree b.
Proof.
  induction a as [|c a IH]; [reflexivity|].
  change (String c a +:+ b) with (String c (a +:+ b)). simpl.
  rewrite IH. by destruct (Ascii.eqb c "%").
Qed.

(** A format without a percent sign is printed as it is. *)
Lemma Sprintf_percentFree (s : string) (a : list Arg) :
  percentFree s = true -> Sprintf s a = s.
Proof.
  induction s as [|c s IH]; [reflexivity|]. simpl.
  destruct (Ascii.eqb c "%"); [done|]. simpl. intros Hs. by rewrite IH.
Qed.

(** C2: an invalid destination is reported by a fatal log call, but the
    text that names the destination is handed to the logger as its printf
    format, and is formatted once more.  The destination [ftp://%v] is
    non-empty and has none of the three prefixes; the run on it exits 1 on
    that fatal call, and what is printed has [%!v(MISSING)] where the
    destination's [%v] was: the message the operator reads does not hold the
    destination string. *)
Theorem C2_destination_with_verb_is_not_named `{External} (c : cli_Context) :
  loadError c = None ->
  loadedDestination c = "ftp://%v" ->
  fst (run c) = 1
  /\ last (snd (run c))
     = Some (EvFatal (invalidDestinationMessage "ftp://%v") [])
  /\ printed (EvFatal (invalidDestinationMessage "ftp://%v") [])
     = Some "Invalid upload destination: 'ftp://%!v(MISSING)'. Only s3://, gs:// or rt:// upload destinations are allowed. Did you forget to surround your artifact upload pattern in double quotes?"
  /\ Contains
       "Invalid upload destination: 'ftp://%!v(MISSING)'. Only s3://, gs:// or rt:// upload destinations are allowed. Did you forget to surround your artifact upload pattern in double quotes?"
       "ftp://%v" = false.
Proof.
  intros Hload Hd.
  assert (Hrun : run c
    = (1, [EvLoad c; EvHandleGlobalFlags (loadedConfig c);
           EvNewClient
             (loadAPIClientConfig (loadedConfig c) "AgentAccessToken");
           EvFatal (invalidDestinationMessage "ftp://%v") []])).
  { rewrite <- Hd. unfold loadedDestination in *.
    apply run_invalid_destination; [done|..]; rewrite Hd;
      try discriminate; intros rest; discriminate. }
  rewrite Hrun. repeat split; vm_compute; reflexivity.
Qed.

Lemma C2_destination_with_verb_is_not_named_witness :
  fst (@run Demo.world ("ftp://%v", EmptyString)) = 1
  /\ last (snd (@run Demo.world ("ftp://%v", EmptyString)))
     = Some (@EvFatal Demo.world (invalidDestinationMessage "ftp://%v") [])
  /\ @printed Demo.world (EvFatal (invalidDestinationMessage "ftp://%v") [])
     = Some "Invalid upload destination: 'ftp://%!v(MISSING)'. Only s3://, gs:// or rt:// upload destinations are allowed. Did you forget to surround your artifact upload pattern in double quotes?"
  /\ Contains
       "Invalid upload destination: 'ftp://%!v(MISSING)'. Only s3://, gs:// or rt:// upload destinations are allowed. Did you forget to surround your artifact upload pattern in double quotes?"
       "ftp://%v" = false.
Proof.
  apply (@C2_destination_with_verb_is_not_named Demo.world
           ("ftp://%v", EmptyString)); reflexivity.
Defined.

(** C3: an invalid destination is one failure, before anything is resolved,
    uploaded or registered: the trace of the run has no call into the
    artifact uploader and none of its effects, no uploader constructor was
    called, the only fatal log call is the last event, and the exit status
    is not zero. *)
Theorem C3_invalid_destination_aborts_first `{External} (c : cli_Context) :
  loadError c = None ->
  loadedDestination c <> EmptyString ->
  (forall rest, loadedDestination c <> "s3://" +:+ rest) ->
  (forall rest, loadedDestination c <> "gs://" +:+ rest) ->
  (forall rest, loadedDestination c <> "rt://" +:+ rest) ->
  fst (run c) <> 0
  /\ Forall (fun e => touchesArtifacts e = false) (snd (run c))
  /\ constructed (snd (run c)) = []
  /\ exists before msg,
       snd (run c) = before ++ [EvFatal msg []]
       /\ Forall (fun e => isFatal e = false) before.
Proof.
  intros Hload Hd Hs3 Hgs Hrt.
  rewrite (run_invalid_destination c Hload Hd Hs3 Hgs Hrt). simpl.
  split; [done|]. split; [by repeat constructor|]. split; [done|].
  eexists [_; _; _], _. split; [reflexivity|]. by repeat constructor.
Qed.

Lemma C3_invalid_destination_aborts_first_witness :
  fst (@run Demo.world ("ftp://host/path", EmptyString)) <> 0
  /\ Forall (fun e => @touchesArtifacts Demo.world e = false)
       (snd (@run Demo.world ("ftp://host/path", EmptyString)))
  /\ @constructed Demo.world
       (snd (@run Demo.world ("ftp://host/path", EmptyString))) = []
  /\ exists before msg,
       snd (@run Demo.world ("ftp://host/path", EmptyString))
       = before ++ [EvFatal msg []]
       /\ Forall (fun e => @isFatal Demo.world e = false) before.
Proof.
  apply (@C3_invalid_destination_aborts_first Demo.world
           ("ftp://host/path", EmptyString));
    [reflexivity | discriminate | intros rest; discriminate ..].
Defined.

Lemma resolveDestination_empty :
  resolveDestination EmptyString EmptyString = EmptyString.
Proof. reflexivity. Qed.

Lemma resolveDestination_argument (argument configured : string) :
  argument <> EmptyString ->
  resolveDestination argument configured = argument.
Proof. intros Ha. unfold resolveDestination. by rewrite eqb_empty_false. Qed.

(** The run on an empty destination. *)
Lemma run_default_backend `{External} (c : cli_Context) :
  loadError c = None ->
  loadedDestination c = EmptyString ->
  run c
  = uploadStage (loadedConfig c)
      [EvLoad c; EvHandleGlobalFlags (loadedConfig c);
       EvNewClient (loadAPIClientConfig (loadedConfig c) "AgentAccessToken");
       EvNewFormUploader (formConfig c);
       EvInfo "Uploading to default Buildkite artifact storage" []]
      (NewFormUploader (formConfig c)).
Proof.
  intros Hload Hd. rewrite run_unfold. unfold stages. rewrite Hload.
  unfold loadedDestination in Hd. by rewrite Hd.
Qed.

(** C4: with the destination argument and the configured destination both
    empty, the default backend is used: the only constructor the run calls
    is the form uploader's, whose configuration holds nothing but the
    HTTP-debugging switch, its uploader is the one the batch is uploaded
    with, and the run succeeds exactly when that upload returns no error. *)
Theorem C4_default_backend_when_both_empty `{External}
    (argument configured : cli_Context -> string) (c : cli_Context) :
  LoadFollowsPrecedence argument configured ->
  loadError c = None ->
  argument c = EmptyString ->
  configured c = EmptyString ->
  constructed (snd (run c)) = [ByNewFormUploader (formConfig c)]
  /\ uploadedWith (snd (run c)) = [NewFormUploader (formConfig c)]
  /\ (fst (run c) = 0
      <-> snd (ArtifactUploader_Upload
                 (api_NewClient
                    (loadAPIClientConfig (loadedConfig c) "AgentAccessToken"))
                 (uploaderConfigOf (loadedConfig c))
                 (NewFormUploader (formConfig c))) = None).
Proof.
  intros Hprec Hload Ha He.
  assert (Hd : loadedDestination c = EmptyString).
  { unfold loadedDestination, loadedConfig. rewrite Hprec, Ha, He.
    apply resolveDestination_empty. }
  rewrite (run_default_backend c Hload Hd).
  rewrite constructed_uploadStage, uploadedWith_uploadStage.
  split; [done|]. split; [done|].
  unfold uploadStage, formConfig.
  by destruct (snd (ArtifactUploader_Upload _ _ _)).
Qed.

Lemma C4_default_backend_when_both_empty_witness :
  @constructed Demo.world
    (snd (@run Demo.world (EmptyString, EmptyString)))
  = [ByNewFormUploader (FormUploaderConfig.mk false)]
  /\ @uploadedWith Demo.world
       (snd (@run Demo.world (EmptyString, EmptyString)))
     = ["FormUploader"]
  /\ (fst (@run Demo.world (EmptyString, EmptyString)) = 0
      <-> @None string = None).
Proof.
  apply (@C4_default_backend_when_both_empty Demo.world fst snd
           (EmptyString, EmptyString));
    [intros c cfg; reflexivity | reflexivity ..].
Defined.

(** C5: when the constructor of the selected backend returns an error, the
    run fails on it: the last event is the fatal log call that reports the
    constructor's error, the exit status is 1, and the trace holds no call
    into the artifact uploader and none of its effects. *)
Theorem C5_construction_failure_aborts `{External} (c : cli_Context)
    (k : Constructed) (e : string) :
  In k (constructed (snd (run c))) ->
  constructionError k = Some e ->
  fst (run c) = 1
  /\ last (snd (run c))
     = Some (EvFatal ("Error creating uploader: " +:+ e) [])
  /\ Forall (fun ev => touchesArtifacts ev = false) (snd (run c)).
Proof.
  rewrite run_unfold. unfold stages.
  destruct (loadError c); [by intros []|].
  destruct (String.eqb _ EmptyString).
  { rewrite constructed_uploadStage. simpl. intros [<-|[]]. discriminate. }
  destruct (HasPrefix _ "s3://").
  { rewrite constructed_constructionStage. simpl. intros [<-|[]]. simpl.
    intros He. unfold constructionStage. rewrite He. simpl.
    split; [done|]. split; [done|]. by repeat constructor. }
  destruct (HasPrefix _ "gs://").
  { rewrite constructed_constructionStage. simpl. intros [<-|[]]. simpl.
    intros He. unfold constructionStage. rewrite He. simpl.
    split; [done|]. split; [done|]. by repeat constructor. }
  destruct (HasPrefix _ "rt://"); [|by intros []].
  rewrite constructed_constructionStage. simpl. intros [<-|[]]. simpl.
  intros He. unfold constructionStage. rewrite He. simpl.
  split; [done|]. split; [done|]. by repeat constructor.
Qed.

Lemma C5_construction_failure_aborts_witness :
  fst (@run Demo.world ("gs://bucket/logs", EmptyString)) = 1
  /\ last (snd (@run Demo.world ("gs://bucket/logs", EmptyString)))
     = Some (@EvFatal Demo.world
               "Error creating uploader: missing credentials" [])
  /\ Forall (fun ev => @touchesArtifacts Demo.world ev = false)
       (snd (@run Demo.world ("gs://bucket/logs", EmptyString))).
Proof.
  apply (@C5_construction_failure_aborts Demo.world
           ("gs://bucket/logs", EmptyString)
           (ByNewGSUploader (GSUploaderConfig.mk "gs://bucket/logs" false))
           "missing credentials");
    [left; reflexivity | reflexivity].
Defined.

(** C9: when the destination argument and the configured destination are
    both non-empty, the argument is the destination of the loaded
    configuration, and the constructor the run calls is the one that goes
    with [Route] of the argument. *)
Theorem C9_argument_overrides_configured `{External}
    (argument configured : cli_Context -> string) (c : cli_Context) :
  LoadFollowsPrecedence argument configured ->
  argument c <> EmptyString ->
  configured c <> EmptyString ->
  loadedDestination c = argument c
  /\ (loadError c = None ->
      constructed (snd (run c))
      = expectedConstruction (loadedConfig c) (Route (argument c))).
Proof.
  intros Hprec Ha He.
  assert (Hd : loadedDestination c = argument c).
  { unfold loadedDestination, loadedConfig. rewrite Hprec.
    by apply resolveDestination_argument. }
  split; [done|]. intros Hload. rewrite <- Hd. by apply constructed_run.
Qed.

Lemma C9_argument_overrides_configured_witness :
  @loadedDestination Demo.world ("rt://repo/job", "s3://bucket/job")
  = "rt://repo/job"
  /\ (@loadError Demo.world ("rt://repo/job", "s3://bucket/job") = None ->
      @constructed Demo.world
        (snd (@run Demo.world ("rt://repo/job", "s3://bucket/job")))
      = expectedConstruction
          (@loadedConfig Demo.world ("rt://repo/job", "s3://bucket/job"))
          (Route "rt://repo/job")).
Proof.
  apply (@C9_argument_overrides_configured Demo.world fst snd
           ("rt://repo/job", "s3://bucket/job"));
    [intros c cfg; reflexivity | discriminate | discriminate].
Defined.

(** C10: on the empty-destination path no constructor can fail.  With an
    empty destination no event of the run is the fatal log call for a
    constructor error, and every constructor the run called returned a nil
    error; so a run that does write that fatal log line had a non-empty
    destination. *)
Theorem C10_default_construction_cannot_fail `{External} (c : cli_Context) :
  (loadedDestination c = EmptyString ->
   Forall (fun e => isConstructionFatal e = false) (snd (run c))
   /\ Forall (fun k => constructionError k = None)
        (constructed (snd (run c))))
  /\ (Exists (fun e => isConstructionFatal e = true) (snd (run c)) ->
      loadedDestination c <> EmptyString).
Proof.
  assert (Hempty : loadedDestination c = EmptyString ->
     Forall (fun e => isConstructionFatal e = false) (snd (run c))
     /\ Forall (fun k => constructionError k = None)
          (constructed (snd (run c)))).
  { intros Hd. destruct (loadError c) as [e|] eqn:Hload.
    - rewrite run_unfold. unfold stages. rewrite Hload. simpl.
      split; by repeat constructor.
    - rewrite (run_default_backend c Hload Hd).
      rewrite constructed_uploadStage. simpl. split; [|by repeat constructor].
      apply uploadStage_no_constructionFatal. by repeat constructor. }
  split; [done|]. intros Hex Hd. destruct (Hempty Hd) as [Hall _].
  apply Exists_exists in Hex as (e & Hin & He).
  rewrite Forall_forall in Hall. specialize (Hall e Hin). congruence.
Qed.

(** ** The artifact uploader of the specification *)

(** *** Resolving paths *)

Lemma dedup_elem_of (seen : gset string) (ms : list GlobMatch) (m : GlobMatch) :
  m ∈ PathResolver.dedup seen ms -> m ∈ ms /\ resolvedPath m ∉ seen.
Proof.
  revert seen. induction ms as [|m' ms IH]; intros seen; simpl.
  - by intros ?%elem_of_nil.
  - destruct (decide (resolvedPath m' ∈ seen)) as [Hin|Hnin].
    + intros Hm. apply IH in Hm as [? ?]. split; [by right|done].
    + intros Hm. apply elem_of_cons in Hm as [->|Hm].
      * split; [by left|done].
      * apply IH in Hm as [? [_ ?]%not_elem_of_union]. by split; [right|].
Qed.

Lemma dedup_NoDup (seen : gset string) (ms : list GlobMatch) :
  NoDup (map resolvedPath (PathResolver.dedup seen ms)).
Proof.
  revert seen. induction ms as [|m ms IH]; intros seen; simpl.
  - constructor.
  - destruct (decide (resolvedPath m ∈ seen)); [apply IH|].
    simpl. apply NoDup_cons. split; [|apply IH].
    rewrite list_elem_of_In, in_map_iff. intros (m' & Heq & Hin).
    apply list_elem_of_In in Hin. apply dedup_elem_of in Hin as [_ Hnot].
    rewrite Heq in Hnot. apply Hnot, elem_of_union. left.
    by apply elem_of_singleton.
Qed.

Lemma dedup_keeps (seen : gset string) (ms : list GlobMatch) (m : GlobMatch) :
  m ∈ ms -> resolvedPath m ∉ seen ->
  resolvedPath m ∈ map resolvedPath (PathResolver.dedup seen ms).
Proof.
  revert seen. induction ms as [|m' ms IH]; intros seen Hin Hnot; simpl.
  - by apply elem_of_nil in Hin.
  - apply elem_of_cons in Hin as [->|Hin].
    + destruct (decide (resolvedPath m' ∈ seen)); [done|]. simpl. by left.
    + destruct (decide (resolvedPath m' ∈ seen)); [by apply IH|].
      simpl. destruct (decide (resolvedPath m = resolvedPath m')) as [->|Hne].
      * by left.
      * right. apply IH; [done|]. apply not_elem_of_union.
        split; [by apply not_elem_of_singleton|done].
Qed.

(** In a list without two equal keys, a key that occurs is the key of
    exactly one element. *)
Lemma NoDup_key_once {A} (key : A -> string) (l : list A) (r : string) :
  NoDup (map key l) -> r ∈ map key l ->
  length (filter (fun a => key a = r) l) = 1%nat.
Proof.
  induction l as [|a l IH]; simpl; intros Hnd Hin.
  - by apply elem_of_nil in Hin.
  - apply NoDup_cons in Hnd as [Hnot Hnd].
    destruct (decide (key a = r)) as [Heq|Hne].
    + rewrite filter_cons_True by done. simpl. f_equal.
      destruct (filter (fun a0 => key a0 = r) l) as [|b bs] eqn:Hf; [done|].
      exfalso. apply Hnot.
      assert (Hb : b ∈ filter (fun a0 => key a0 = r) l)
        by (rewrite Hf; by left).
      apply list_elem_of_filter in Hb as [Hkb Hbl].
      rewrite Heq, <- Hkb. apply list_elem_of_In, in_map.
      by apply list_elem_of_In.
    + rewrite filter_cons_False by done.
      apply elem_of_cons in Hin as [Heq|Hin]; [congruence|]. by apply IH.
Qed.

Lemma map_AbsolutePath_artifactOf `{Backend} (override : string)
    (files : list GlobMatch) :
  map Artifact.AbsolutePath (map (PathResolver.artifactOf override) files)
  = map resolvedPath files.
Proof. rewrite map_map. by apply map_ext. Qed.

Lemma Resolve_files `{Backend} (pattern override : string) (follow : bool) :
  PathResolver.expand pattern follow <> [] ->
  PathResolver.Resolve pattern follow override
  = inr (map (PathResolver.artifactOf override)
             (PathResolver.expand pattern follow)).
Proof.
  unfold PathResolver.Resolve.
  by destruct (PathResolver.expand pattern follow).
Qed.

Lemma Resolve_nonempty `{Backend} (pattern override : string) (follow : bool)
    (batch : list Artifact.t) :
  PathResolver.Resolve pattern follow override = inr batch -> batch <> [].
Proof.
  unfold PathResolver.Resolve.
  destruct (PathResolver.expand pattern follow); [done|].
  by intros [= <-].
Qed.

(** C8: with [followSymlinks] the files reached through linked directories
    are part of the expansion, and the batch is deduplicated by resolved
    absolute path: for every file the glob reaches, by whatever chain of
    links, the resolution succeeds, no two artifacts of the batch have the
    same absolute path, and exactly one artifact has the file's resolved
    path. *)
Theorem C8_file_behind_two_links_once `{Backend} (pattern override : string)
    (m : GlobMatch) :
  In m (expandGlob pattern) ->
  isDirectory m = false ->
  exists batch,
    PathResolver.Resolve pattern true override = inr batch
    /\ NoDup (map Artifact.AbsolutePath batch)
    /\ length (filter (fun a => Artifact.AbsolutePath a = resolvedPath m)
                      batch) = 1%nat.
Proof.
  intros Hin Hfile. apply list_elem_of_In in Hin.
  assert (Hkept : resolvedPath m
                  ∈ map resolvedPath (PathResolver.expand pattern true)).
  { unfold PathResolver.expand. apply dedup_keeps; [|apply not_elem_of_empty].
    by apply list_elem_of_filter. }
  assert (Hne : PathResolver.expand pattern true <> []).
  { intros Hnil. rewrite Hnil in Hkept. by apply elem_of_nil in Hkept. }
  eexists. split; [by apply Resolve_files|].
  assert (Hnd : NoDup (map Artifact.AbsolutePath
                         (map (PathResolver.artifactOf override)
                              (PathResolver.expand pattern true)))).
  { rewrite map_AbsolutePath_artifactOf. apply dedup_NoDup. }
  split; [done|]. apply NoDup_key_once; [done|].
  by rewrite map_AbsolutePath_artifactOf.
Qed.

Lemma C8_file_behind_two_links_once_witness :
  exists batch,
    @PathResolver.Resolve Demo.backend "log/*.log" true EmptyString
    = inr batch
    /\ NoDup (map Artifact.AbsolutePath batch)
    /\ length (filter (fun a => Artifact.AbsolutePath a = "/data/b.log")
                      batch) = 1%nat.
Proof.
  apply (@C8_file_behind_two_links_once Demo.backend "log/*.log" EmptyString
           (mkGlobMatch "log/l2/b.log" "/data/b.log" false true 20 "c2"));
    [simpl; tauto | reflexivity].
Defined.

(** C6: a pattern whose expansion holds no file (every path it reaches is a
    directory, or lies behind a linked directory that is not followed) is a
    hard error: [Resolve] fails with [NoFilesMatchedError], the upload
    returns an error, and none of the calls it made is a network call.
    [Resolve] never succeeds with an empty batch, and neither does [Run]
    accept one. *)
Theorem C6_no_files_matched_is_error `{Backend}
    (conf : ArtifactUploaderConfig.t) :
  Forall (fun m => isDirectory m = true
                   \/ (ArtifactUploaderConfig.FollowSymlinks conf = false
                       /\ throughLinkedDirectory m = true))
         (expandGlob (ArtifactUploaderConfig.Paths conf)) ->
  PathResolver.Resolve (ArtifactUploaderConfig.Paths conf)
    (ArtifactUploaderConfig.FollowSymlinks conf)
    (ArtifactUploaderConfig.ContentType conf) = inl NoFilesMatchedError
  /\ snd (specUpload conf) <> None
  /\ Forall (fun call => isNetworkCall call = false) (fst (specUpload conf))
  /\ (forall pattern follow override,
        PathResolver.Resolve pattern follow override <> inr [])
  /\ (forall jobID,
        UploadOrchestrator.Run jobID [] = ([], inl NoFilesMatchedError)).
Proof.
  intros Hnone.
  assert (Hexp : PathResolver.expand (ArtifactUploaderConfig.Paths conf)
                   (ArtifactUploaderConfig.FollowSymlinks conf) = []).
  { assert (Hfiles : forall follow,
      follow = ArtifactUploaderConfig.FollowSymlinks conf ->
      filter (fun m => isDirectory m = false)
        (if follow then expandGlob (ArtifactUploaderConfig.Paths conf)
         else filter (fun m => throughLinkedDirectory m = false)
                (expandGlob (ArtifactUploaderConfig.Paths conf))) = []).
    { intros follow Hf.
      induction Hnone as [|m ms Hm _ IH]; [by destruct follow|].
      destruct follow.
      - destruct Hm as [Hm|[Hm _]]; [|congruence].
        rewrite filter_cons_False by congruence. apply IH.
      - destruct (decide (throughLinkedDirectory m = false)) as [Ht|Ht].
        + rewrite (filter_cons_True _ m ms Ht).
          destruct Hm as [Hm|[_ Hm]]; [|congruence].
          rewrite filter_cons_False by congruence. apply IH.
        + rewrite (filter_cons_False _ m ms Ht). apply IH. }
    unfold PathResolver.expand.
    rewrite (Hfiles _ eq_refl). by destruct (ArtifactUploaderConfig.FollowSymlinks conf). }
  assert (Hres : PathResolver.Resolve (ArtifactUploaderConfig.Paths conf)
    (ArtifactUploaderConfig.FollowSymlinks conf)
    (ArtifactUploaderConfig.ContentType conf) = inl NoFilesMatchedError).
  { unfold PathResolver.Resolve. by rewrite Hexp. }
  split; [done|]. unfold specUpload. rewrite Hres. simpl.
  split; [done|]. split; [by repeat constructor|].
  split; [|done]. intros pattern follow override Hr.
  by apply Resolve_nonempty in Hr.
Qed.

Lemma C6_no_files_matched_is_error_witness :
  @PathResolver.Resolve Demo.backend "pkg/*" false EmptyString
  = inl NoFilesMatchedError
  /\ snd (@specUpload Demo.backend
            (ArtifactUploaderConfig.mk "job-1" "pkg/*" EmptyString
               EmptyString false false)) <> None
  /\ Forall (fun call => isNetworkCall call = false)
       (fst (@specUpload Demo.backend
               (ArtifactUploaderConfig.mk "job-1" "pkg/*" EmptyString
                  EmptyString false false)))
  /\ (forall pattern follow override,
        @PathResolver.Resolve Demo.backend pattern follow override <> inr [])
  /\ (forall jobID,
        @UploadOrchestrator.Run Demo.backend jobID []
        = ([], inl NoFilesMatchedError)).
Proof.
  apply (@C6_no_files_matched_is_error Demo.backend
           (ArtifactUploaderConfig.mk "job-1" "pkg/*" EmptyString
              EmptyString false false)).
  simpl. constructor; [by left|]. constructor; [by right|]. constructor.
Defined.

(** *** Running a batch *)

Lemma registered_snoc (done : list Artifact.t) (a' : Artifact.t)
    (reg reg' : gmap nat ArtifactState) :
  (forall (j : nat) (a : Artifact.t),
     done !! j = Some a -> Artifact.State a = uploaded ->
     reg !! j = Some uploaded) ->
  (forall j : nat, j <> length done -> reg' !! j = reg !! j) ->
  (Artifact.State a' = uploaded -> reg' !! length done = Some uploaded) ->
  forall (j : nat) (a : Artifact.t),
    (done ++ [a']) !! j = Some a -> Artifact.State a = uploaded ->
    reg' !! j = Some uploaded.
Proof.
  intros Hreg Hother Hnew j a Hj Ha.
  apply lookup_snoc_Some in Hj as [[Hlt Hj]|[-> ->]].
  - rewrite Hother by lia. by apply (Hreg j a).
  - by apply Hnew.
Qed.

Lemma uploadOne_progressed `{Backend} (index : nat) (a : Artifact.t)
    (p : UploadOrchestrator.Progress) :
  progressed index p ->
  progressed (S index) (UploadOrchestrator.uploadOne index a p).
Proof.
  intros (Hlen & Hterm & Hfail & Hreg).
  unfold progressed, UploadOrchestrator.uploadOne.
  destruct (UploadOrchestrator.uploadWithRetry index 0 retryBudget)
    as [calls [meta|cause]].
  - destruct (updateArtifactStatus index uploaded); simpl.
    + split; [rewrite length_app; simpl; lia|].
      split; [apply Forall_app; split; [done|by repeat constructor]|].
      split.
      * rewrite filter_app, filter_cons_False by (simpl; congruence).
        by rewrite filter_nil, app_nil_r.
      * apply (registered_snoc _ _ (UploadOrchestrator.registry p));
          [done| |].
        -- intros j Hj. apply lookup_insert_ne. lia.
        -- intros _. rewrite Hlen. apply lookup_insert_eq.
    + split; [rewrite length_app; simpl; lia|].
      split; [apply Forall_app; split; [done|by repeat constructor]|].
      split.
      * rewrite map_app, filter_app, filter_cons_True by done.
        by rewrite filter_nil, Hfail.
      * apply (registered_snoc _ _ (UploadOrchestrator.registry p));
          [done|done|]. simpl. congruence.
  - simpl.
    split; [rewrite length_app; simpl; lia|].
    split; [apply Forall_app; split; [done|by repeat constructor]|].
    split.
    + rewrite map_app, filter_app, filter_cons_True by done.
      by rewrite filter_nil, Hfail.
    + apply (registered_snoc _ _ (UploadOrchestrator.registry p));
        [done| |simpl; congruence].
      intros j Hj. destruct (updateArtifactStatus index failed); [|done].
      apply lookup_insert_ne. lia.
Qed.

Lemma uploadAll_progressed `{Backend} (batch : list Artifact.t) :
  forall (index : nat) (p : UploadOrchestrator.Progress),
    progressed index p ->
    progressed (index + length batch)
               (UploadOrchestrator.uploadAll index batch p).
Proof.
  induction batch as [|a batch IH]; intros index p Hp; simpl.
  - by rewrite Nat.add_0_r.
  - replace (index + S (length batch))%nat
      with (S index + length batch)%nat by lia.
    apply IH. by apply uploadOne_progressed.
Qed.

(** A batch has no failure exactly when all its artifacts are uploaded. *)
Lemma no_failed_all_uploaded (done : list Artifact.t) :
  Forall (fun a => Artifact.State a = uploaded \/ Artifact.State a = failed)
         done ->
  filter (fun a => Artifact.State a = failed) done = []
  <-> Forall (fun a => Artifact.State a = uploaded) done.
Proof.
  induction 1 as [|a done Ha _ IH].
  - split; [constructor|done].
  - destruct Ha as [Ha|Ha].
    + rewrite filter_cons_False by congruence. rewrite IH. split.
      * by constructor.
      * by intros [_ ?]%Forall_cons.
    + rewrite filter_cons_True by done. split; [done|].
      intros [? _]%Forall_cons. congruence.
Qed.

(** A run that ends with status 0 got a nil error from the upload of the
    loaded configuration. *)
Lemma run_zero_upload_ok `{External} (c : cli_Context) :
  fst (run c) = 0 ->
  exists u,
    snd (ArtifactUploader_Upload
           (api_NewClient
              (loadAPIClientConfig (loadedConfig c) "AgentAccessToken"))
           (uploaderConfigOf (loadedConfig c)) u) = None.
Proof.
  assert (Hup : forall t u,
    fst (uploadStage (loadedConfig c) t u) = 0 ->
    snd (ArtifactUploader_Upload
           (api_NewClient
              (loadAPIClientConfig (loadedConfig c) "AgentAccessToken"))
           (uploaderConfigOf (loadedConfig c)) u) = None).
  { intros t u. unfold uploadStage.
    by destruct (snd (ArtifactUploader_Upload _ _ _)). }
  assert (Hcon : forall t made,
    fst (constructionStage (loadedConfig c) t made) = 0 ->
    exists u,
      snd (ArtifactUploader_Upload
             (api_NewClient
                (loadAPIClientConfig (loadedConfig c) "AgentAccessToken"))
             (uploaderConfigOf (loadedConfig c)) u) = None).
  { intros t made. unfold constructionStage.
    destruct (snd made); [done|]. intros Hz. eexists. by eapply Hup. }
  rewrite run_unfold. unfold stages.
  destruct (loadError c); [done|].
  destruct (String.eqb _ EmptyString).
  { intros Hz. eexists. by eapply Hup. }
  destruct (HasPrefix _ "s3://"); [by apply Hcon|].
  destruct (HasPrefix _ "gs://"); [by apply Hcon|].
  destruct (HasPrefix _ "rt://"); [by apply Hcon|done].
Qed.

(** *** The errors a batch carries *)

(** What [uploadWithRetry] returns, in terms of the attempts made. *)
Lemma uploadWithRetry_outcome `{Backend} (index budget : nat) :
  forall attempt : nat,
  exists n : nat,
    (n <= budget)%nat
    /\ (forall i : nat, (i < n)%nat ->
          exists c, attemptUpload index (attempt + i) = Transient c)
    /\ match snd (UploadOrchestrator.uploadWithRetry index attempt budget)
       with
       | inl meta => attemptUpload index (attempt + n) = Stored meta
       | inr cause =>
           attemptUpload index (attempt + n) = Permanent cause
           \/ (attemptUpload index (attempt + n) = Transient cause
               /\ n = budget)
       end.
Proof.
  induction budget as [|budget IH]; intros attempt.
  - exists 0%nat. split; [lia|]. split; [intros i Hi; lia|].
    rewrite Nat.add_0_r. simpl.
    destruct (attemptUpload index attempt) as [meta|cause|cause]; simpl; auto.
  - simpl.
    destruct (attemptUpload index attempt) as [meta|cause|cause] eqn:Hat.
    + exists 0%nat. split; [lia|]. split; [intros i Hi; lia|].
      by rewrite Nat.add_0_r.
    + destruct (IH (S attempt)) as (n & Hn & Hbefore & Hlast).
      destruct (UploadOrchestrator.uploadWithRetry index (S attempt) budget)
        as [calls r].
      exists (S n). split; [lia|]. split.
      * intros [|i] Hi.
        -- rewrite Nat.add_0_r. by exists cause.
        -- replace (attempt + S i)%nat with (S attempt + i)%nat by lia.
           apply Hbefore. lia.
      * replace (attempt + S n)%nat with (S attempt + n)%nat by lia.
        simpl in *. destruct r as [meta|cause']; [done|].
        destruct Hlast as [Hp|[Ht ->]]; [by left|by right].
    + exists 0%nat. split; [lia|]. split; [intros i Hi; lia|].
      rewrite Nat.add_0_r. by left.
Qed.

Lemma uploadWithRetry_stored `{Backend} (index : nat) calls (meta : string) :
  UploadOrchestrator.uploadWithRetry index 0 retryBudget = (calls, inl meta) ->
  StoredAt index meta.
Proof.
  intros Hr. destruct (uploadWithRetry_outcome index retryBudget 0%nat)
    as (n & Hn & Hbefore & Hlast).
  rewrite Hr in Hlast. by exists n.
Qed.

Lemma uploadWithRetry_failed `{Backend} (index : nat) calls (cause : string) :
  UploadOrchestrator.uploadWithRetry index 0 retryBudget
  = (calls, inr cause) ->
  FailedWith index cause.
Proof.
  intros Hr. destruct (uploadWithRetry_outcome index retryBudget 0%nat)
    as (n & Hn & Hbefore & Hlast).
  rewrite Hr in Hlast. by exists n.
Qed.

Lemma failedFrom_snoc (done : list Artifact.t) (a : Artifact.t) :
  forall index : nat,
    failedFrom index (done ++ [a])
    = failedFrom index done
      ++ (if decide (Artifact.State a = failed)
          then [(index + length done)%nat] else []).
Proof.
  induction done as [|b done IH]; intros index; simpl.
  - rewrite Nat.add_0_r. by destruct (decide (Artifact.State a = failed)).
  - rewrite IH. replace (S index + length done)%nat
      with (index + S (length done))%nat by lia.
    by destruct (decide (Artifact.State b = failed)).
Qed.

(** The failed indices are the indices of the failed artifacts. *)
Lemma failedFrom_lookup (done : list Artifact.t) :
  forall index j : nat,
    In j (failedFrom index done)
    <-> exists a, (index <= j)%nat
                  /\ done !! (j - index)%nat = Some a
                  /\ Artifact.State a = failed.
Proof.
  induction done as [|b done IH]; intros index j; simpl.
  - split; [done|]. by intros (a & _ & Hl & _).
  - destruct (decide (Artifact.State b = failed)) as [Hb|Hb]; simpl.
    + rewrite IH. split.
      * intros [<-|(a & Hle & Hl & Ha)].
        -- exists b. rewrite Nat.sub_diag. by repeat split.
        -- exists a. split; [lia|]. split; [|done].
           replace (j - index)%nat with (S (j - S index))%nat by lia. done.
      * intros (a & Hle & Hl & Ha).
        destruct (decide (j = index)) as [->|Hne]; [by left|]. right.
        exists a. split; [lia|]. split; [|done].
        replace (j - index)%nat with (S (j - S index))%nat in Hl by lia. done.
    + rewrite IH. split.
      * intros (a & Hle & Hl & Ha). exists a. split; [lia|]. split; [|done].
        replace (j - index)%nat with (S (j - S index))%nat by lia. done.
      * intros (a & Hle & Hl & Ha).
        destruct (decide (j = index)) as [->|Hne].
        { rewrite Nat.sub_diag in Hl. simpl in Hl. congruence. }
        exists a. split; [lia|]. split; [|done].
        replace (j - index)%nat with (S (j - S index))%nat in Hl by lia. done.
Qed.

Lemma uploadOne_accounted `{Backend} (processed : list Artifact.t)
    (a : Artifact.t) (p : UploadOrchestrator.Progress) :
  accounted processed p ->
  accounted (processed ++ [a])
    (UploadOrchestrator.uploadOne (length processed) a p).
Proof.
  intros (Hsame & Hup & Herr).
  pose proof (Forall2_length _ _ _ Hsame) as Hlen.
  unfold accounted, UploadOrchestrator.uploadOne.
  destruct (UploadOrchestrator.uploadWithRetry (length processed) 0
              retryBudget) as [calls [meta|cause]] eqn:Hretry.
  - apply uploadWithRetry_stored in Hretry.
    destruct (updateArtifactStatus (length processed) uploaded) eqn:Hst;
      simpl.
    + split; [apply Forall2_app; [done|by repeat constructor]|]. split.
      * intros j a' Hj Ha'.
        apply lookup_snoc_Some in Hj as [[Hlt Hj]|[-> <-]]; [by eauto|].
        rewrite <- Hlen. by exists meta.
      * rewrite failedFrom_snoc. simpl. by rewrite app_nil_r.
    + split; [apply Forall2_app; [done|by repeat constructor]|]. split.
      * intros j a' Hj Ha'.
        apply lookup_snoc_Some in Hj as [[Hlt Hj]|[-> <-]]; [by eauto|].
        done.
      * rewrite failedFrom_snoc, map_app. simpl.
        apply Forall2_app; [done|]. constructor; [|constructor].
        right. split; [done|]. exists meta. by rewrite <- Hlen.
  - apply uploadWithRetry_failed in Hretry. simpl.
    split; [apply Forall2_app; [done|by repeat constructor]|]. split.
    + intros j a' Hj Ha'.
      apply lookup_snoc_Some in Hj as [[Hlt Hj]|[-> <-]]; [by eauto|].
      done.
    + rewrite failedFrom_snoc, map_app. simpl.
      apply Forall2_app; [done|]. constructor; [|constructor].
      left. by rewrite <- Hlen.
Qed.

Lemma uploadAll_accounted `{Backend} (batch : list Artifact.t) :
  forall (processed : list Artifact.t) (p : UploadOrchestrator.Progress),
    accounted processed p ->
    accounted (processed ++ batch)
      (UploadOrchestrator.uploadAll (length processed) batch p).
Proof.
  induction batch as [|a batch IH]; intros processed p Hp; simpl.
  - by rewrite app_nil_r.
  - replace (processed ++ a :: batch) with ((processed ++ [a]) ++ batch)
      by (by rewrite <- app_assoc).
    replace (S (length processed)) with (length (processed ++ [a]))
      by (rewrite length_app; simpl; lia).
    apply IH. by apply uploadOne_accounted.
Qed.

(** C7: a batch that was resolved and registered ends [succeeded] exactly
    when every artifact reached [uploaded]; otherwise it ends
    [partially_failed] with the failed artifacts, in order, each with its
    terminal error.  Every artifact ends uploaded or failed; the ones that
    ended uploaded are registered as uploaded also when the batch failed;
    the upload returns a nil error only for a succeeded batch, so the
    command, run over this artifact uploader, exits non-zero on any other
    result.  The finished artifacts are the artifacts of the batch, index by
    index, changed in state and metadata only; one that ended uploaded was
    stored within the retry budget, carries the metadata it was stored
    with, and its report was accepted; and the errors the result carries
    are, failed index by failed index, the terminal errors of those
    artifacts: the cause of the attempt that ended the upload, or a
    registration error for a stored artifact whose report was rejected. *)
Theorem C7_batch_result `{Backend} (conf : ArtifactUploaderConfig.t)
    (batch : list Artifact.t) :
  PathResolver.Resolve (ArtifactUploaderConfig.Paths conf)
    (ArtifactUploaderConfig.FollowSymlinks conf)
    (ArtifactUploaderConfig.ContentType conf) = inr batch ->
  createArtifactBatch (ArtifactUploaderConfig.JobID conf) (length batch)
  = true ->
  exists calls result p,
    UploadOrchestrator.Run (ArtifactUploaderConfig.JobID conf) batch
    = (calls, inr (result, p))
    /\ length (UploadOrchestrator.finished p) = length batch
    /\ Forall (fun a => Artifact.State a = uploaded
                        \/ Artifact.State a = failed)
              (UploadOrchestrator.finished p)
    /\ (result = UploadOrchestrator.succeeded
        <-> Forall (fun a => Artifact.State a = uploaded)
                   (UploadOrchestrator.finished p))
    /\ (result <> UploadOrchestrator.succeeded ->
        result = UploadOrchestrator.partially_failed
                   (UploadOrchestrator.failures p)
        /\ map fst (UploadOrchestrator.failures p)
           = filter (fun a => Artifact.State a = failed)
                    (UploadOrchestrator.finished p))
    /\ (forall (j : nat) (a : Artifact.t),
          UploadOrchestrator.finished p !! j = Some a ->
          Artifact.State a = uploaded ->
          UploadOrchestrator.registry p !! j = Some uploaded)
    /\ (snd (specUpload conf) = None
        <-> result = UploadOrchestrator.succeeded)
    /\ (forall (E : External) (c : @cli_Context E),
          uploaderConfigOf (@loadedConfig E c) = conf ->
          result <> UploadOrchestrator.succeeded ->
          fst (@run (withSpecUpload E _) c) <> 0)
    /\ Forall2 (fun a a' =>
                  a' = Artifact.withState a (Artifact.State a')
                         (Artifact.Metadata a'))
               batch (UploadOrchestrator.finished p)
    /\ (forall (j : nat) (a' : Artifact.t),
          UploadOrchestrator.finished p !! j = Some a' ->
          Artifact.State a' = uploaded ->
          exists meta,
            StoredAt j meta
            /\ Artifact.Metadata a' = Some meta
            /\ updateArtifactStatus j uploaded = true)
    /\ (forall j : nat,
          In j (failedFrom 0 (UploadOrchestrator.finished p))
          <-> exists a',
                UploadOrchestrator.finished p !! j = Some a'
                /\ Artifact.State a' = failed)
    /\ Forall2 (fun j cause => TerminalError j cause)
         (failedFrom 0 (UploadOrchestrator.finished p))
         (map snd (UploadOrchestrator.failures p)).
Proof.
  intros Hres Hcreate.
  pose proof (Resolve_nonempty _ _ _ _ Hres) as Hne.
  set (p0 := UploadOrchestrator.mkProgress [] []
               (UploadOrchestrator.pendingRecords (length batch))
               [CreateArtifactBatch (ArtifactUploaderConfig.JobID conf)
                  (length batch)]).
  set (p := UploadOrchestrator.uploadAll 0 batch p0).
  assert (Hrun : UploadOrchestrator.Run (ArtifactUploaderConfig.JobID conf)
                   batch
                 = (UploadOrchestrator.wire p,
                    inr (UploadOrchestrator.resultOf p, p))).
  { unfold UploadOrchestrator.Run. destruct batch; [done|].
    by rewrite Hcreate. }
  assert (Hp : progressed (0 + length batch) p).
  { apply uploadAll_progressed. by repeat split. }
  destruct Hp as (Hlen & Hterm & Hfail & Hreg).
  assert (Hsucc : UploadOrchestrator.resultOf p = UploadOrchestrator.succeeded
                  <-> Forall (fun a => Artifact.State a = uploaded)
                             (UploadOrchestrator.finished p)).
  { rewrite <- (no_failed_all_uploaded _ Hterm), <- Hfail.
    unfold UploadOrchestrator.resultOf.
    by destruct (UploadOrchestrator.failures p). }
  assert (Hupload : snd (specUpload conf) = None
                    <-> UploadOrchestrator.resultOf p
                        = UploadOrchestrator.succeeded).
  { unfold specUpload. rewrite Hres, Hrun.
    by destruct (UploadOrchestrator.resultOf p). }
  exists (UploadOrchestrator.wire p), (UploadOrchestrator.resultOf p), p.
  split; [done|]. split; [done|]. split; [done|]. split; [done|].
  split.
  { intros Hnot. split; [|done]. unfold UploadOrchestrator.resultOf in *.
    by destruct (UploadOrchestrator.failures p). }
  split; [done|]. split; [done|].
  split.
  { intros E c Hconf Hnot Hzero.
    apply (@run_zero_upload_ok (withSpecUpload E _)) in Hzero as [u Hu].
    simpl in Hu. change (@loadedConfig (withSpecUpload E _) c)
      with (@loadedConfig E c) in Hu.
    rewrite Hconf in Hu. by apply Hnot, Hupload. }
  assert (Hacc : accounted ([] ++ batch) p).
  { apply (uploadAll_accounted batch [] p0).
    repeat split; [constructor| |constructor].
    intros j a' Hj. by destruct j. }
  destruct Hacc as (Hsame & Hstored & Herrors).
  split; [done|]. split; [done|]. split; [|done].
  intros j. rewrite failedFrom_lookup. rewrite Nat.sub_0_r. split.
  - intros (a' & _ & Hj & Ha'). by exists a'.
  - intros (a' & Hj & Ha'). exists a'. split; [lia|done].
Qed.

Lemma C7_batch_result_witness :
  exists calls result p,
    @UploadOrchestrator.Run Demo.backend "job-1" Demo.batch
    = (calls, inr (result, p))
    /\ length (UploadOrchestrator.finished p) = length Demo.batch
    /\ Forall (fun a => Artifact.State a = uploaded
                        \/ Artifact.State a = failed)
              (UploadOrchestrator.finished p)
    /\ (result = UploadOrchestrator.succeeded
        <-> Forall (fun a => Artifact.State a = uploaded)
                   (UploadOrchestrator.finished p))
    /\ (result <> UploadOrchestrator.succeeded ->
        result = UploadOrchestrator.partially_failed
                   (UploadOrchestrator.failures p)
        /\ map fst (UploadOrchestrator.failures p)
           = filter (fun a => Artifact.State a = failed)
                    (UploadOrchestrator.finished p))
    /\ (forall (j : nat) (a : Artifact.t),
          UploadOrchestrator.finished p !! j = Some a ->
          Artifact.State a = uploaded ->
          UploadOrchestrator.registry p !! j = Some uploaded)
    /\ (snd (@specUpload Demo.backend Demo.conf) = None
        <-> result = UploadOrchestrator.succeeded)
    /\ (forall (E : External) (c : @cli_Context E),
          uploaderConfigOf (@loadedConfig E c) = Demo.conf ->
          result <> UploadOrchestrator.succeeded ->
          fst (@run (withSpecUpload E Demo.backend) c) <> 0)
    /\ Forall2 (fun a a' =>
                  a' = Artifact.withState a (Artifact.State a')
                         (Artifact.Metadata a'))
               Demo.batch (UploadOrchestrator.finished p)
    /\ (forall (j : nat) (a' : Artifact.t),
          UploadOrchestrator.finished p !! j = Some a' ->
          Artifact.State a' = uploaded ->
          exists meta,
            @StoredAt Demo.backend j meta
            /\ Artifact.Metadata a' = Some meta
            /\ @updateArtifactStatus Demo.backend j uploaded = true)
    /\ (forall j : nat,
          In j (failedFrom 0 (UploadOrchestrator.finished p))
          <-> exists a',
                UploadOrchestrator.finished p !! j = Some a'
                /\ Artifact.State a' = failed)
    /\ Forall2 (fun j cause => @TerminalError Demo.backend j cause)
         (failedFrom 0 (UploadOrchestrator.finished p))
         (map snd (UploadOrchestrator.failures p)).
Proof.
  apply (@C7_batch_result Demo.backend Demo.conf Demo.batch);
    reflexivity.
Defined.

(** ** More about the command *)

(** Every run has one of the five shapes. *)
Lemma run_shape `{External} (c : cli_Context) : RunShape c (run c).
Proof.
  rewrite run_unfold. unfold stages.
  destruct (loadError c) as [e|] eqn:Hload; [by apply LoadFailed|].
  fold (loadedDestination c).
  destruct (String.eqb (loadedDestination c) EmptyString) eqn:Hd.
  - assert (HR : Route (loadedDestination c) = Some none).
    { unfold Route. by rewrite Hd. }
    unfold uploadStage. fold (clientOf c). fold (formConfig c).
    destruct (ArtifactUploader_Upload _ _ _) as [calls [e|]] eqn:Hup; simpl.
    + apply (UploadFailed c (ByNewFormUploader (formConfig c)) _ calls e);
        [done|by rewrite HR|done|done].
    + apply (Uploaded c (ByNewFormUploader (formConfig c)) _ calls);
        [done|by rewrite HR|done|done].
  - apply String.eqb_neq in Hd. pose proof (Route_nonempty _ Hd) as HR.
    assert (Hstage : forall (k : Constructed) (made : Uploader * error),
      expectedConstruction (loadedConfig c) (Route (loadedDestination c))
      = [k] ->
      constructionError k = snd made ->
      (snd made = None -> built k = Some (fst made)) ->
      infoLine (loadedConfig c) k
      = EvInfo "Uploading to %q, using your agent configuration"
          [ArgString (ArtifactUploadConfig.Destination (loadedConfig c))] ->
      RunShape c
        (constructionStage (loadedConfig c)
           (preamble c ++ [constructorEvent k]) made)).
    { intros k [u err] Hk Herr Hbuilt Hinfo. simpl in Herr, Hbuilt.
      unfold constructionStage. simpl snd. simpl fst.
      destruct err as [e|].
      - rewrite <- Hinfo. by apply (ConstructionFailed c k e).
      - unfold uploadStage. fold (clientOf c). rewrite <- Hinfo.
        destruct (ArtifactUploader_Upload _ _ _) as [calls [e|]] eqn:Hup;
          simpl.
        + apply (UploadFailed c k u calls e); auto.
        + apply (Uploaded c k u calls); auto. }
    destruct (HasPrefix _ "s3://").
    { apply (Hstage (ByNewS3Uploader _)); [by rewrite HR|done| |done].
      intros Hn. unfold built. simpl. by rewrite Hn. }
    destruct (HasPrefix _ "gs://").
    { apply (Hstage (ByNewGSUploader _)); [by rewrite HR|done| |done].
      intros Hn. unfold built. simpl. by rewrite Hn. }
    destruct (HasPrefix _ "rt://").
    { apply (Hstage (ByNewArtifactoryUploader _));
        [by rewrite HR|done| |done].
      intros Hn. unfold built. simpl. by rewrite Hn. }
    by apply DestinationInvalid.
Qed.

(** *** What the events of a shape are *)

Create HintDb trace.

Lemma isFatal_constructorEvent `{External} (k : Constructed) :
  isFatal (constructorEvent k) = false.
Proof. by destruct k. Qed.

Lemma isFatal_infoLine `{External} cfg (k : Constructed) :
  isFatal (infoLine cfg k) = false.
Proof. by destruct k. Qed.

Lemma touches_constructorEvent `{External} (k : Constructed) :
  touchesArtifacts (constructorEvent k) = false.
Proof. by destruct k. Qed.

Lemma touches_infoLine `{External} cfg (k : Constructed) :
  touchesArtifacts (infoLine cfg k) = false.
Proof. by destruct k. Qed.

#[local] Hint Resolve isFatal_constructorEvent isFatal_infoLine
  touches_constructorEvent touches_infoLine : trace.

Lemma constructed_stage `{External} cfg (k : Constructed) (t : list Event) :
  constructed (constructorEvent k :: infoLine cfg k :: t)
  = k :: constructed t.
Proof. by destruct k. Qed.

Lemma uploadedWith_stage `{External} cfg (k : Constructed) (t : list Event) :
  uploadedWith (constructorEvent k :: infoLine cfg k :: t) = uploadedWith t.
Proof. by destruct k. Qed.

(** Every trace is some events without a fatal log call, then one last
    event: the deferred [done()] of a run that exits 0, or the fatal log
    call of a run that exits 1. *)
Lemma run_ending `{External} (c : cli_Context) :
  exists before ending,
    snd (run c) = before ++ [ending]
    /\ Forall (fun e => isFatal e = false) before
    /\ ((ending = EvDone /\ fst (run c) = 0)
        \/ (exists format operands,
              ending = EvFatal format operands /\ fst (run c) = 1)).
Proof.
  generalize (run_shape c). generalize (run c). intros r Hs.
  destruct Hs as [e Hl|Hl HR|k e Hl Hk He|k u calls e Hl Hk Hb Hup
                  |k u calls Hl Hk Hb Hup]; simpl fst; simpl snd.
  - exists [EvLoad c], (EvFatal "%s" [ArgError (Some e)]).
    split; [done|]. split; [by repeat constructor|]. right. by eexists _, _.
  - eexists (preamble c), _. split; [done|].
    split; [by repeat constructor|]. right. by eexists _, _.
  - eexists (preamble c ++ [constructorEvent k; infoLine (loadedConfig c) k]),
      _.
    split; [by rewrite <- app_assoc|].
    split; [|right; by eexists _, _].
    apply Forall_app. split; repeat constructor; auto with trace.
  - eexists (preamble c
             ++ [constructorEvent k; infoLine (loadedConfig c) k;
                 EvUpload (clientOf c) (uploaderConfigOf (loadedConfig c)) u]
             ++ map EvAgent calls), _.
    split; [by rewrite <- !app_assoc|].
    split; [|right; by eexists _, _].
    apply Forall_app. split; [by repeat constructor|].
    apply Forall_app. split; [|by apply Forall_agent].
    repeat constructor; auto with trace.
  - eexists (preamble c
             ++ [constructorEvent k; infoLine (loadedConfig c) k;
                 EvUpload (clientOf c) (uploaderConfigOf (loadedConfig c)) u]
             ++ map EvAgent calls), _.
    split; [by rewrite <- !app_assoc|].
    split; [|by left].
    apply Forall_app. split; [by repeat constructor|].
    apply Forall_app. split; [|by apply Forall_agent].
    repeat constructor; auto with trace.
Qed.

(** A constructor call seen in a trace is the one the routing expects, in a
    run whose configuration loaded. *)
Lemma constructed_in_run `{External} (c : cli_Context) (k : Constructed) :
  In k (constructed (snd (run c))) ->
  loadError c = None
  /\ expectedConstruction (loadedConfig c) (Route (loadedDestination c))
     = [k].
Proof.
  intros Hin. destruct (loadError c) as [e|] eqn:Hl.
  - rewrite run_unfold in Hin. unfold stages in Hin. rewrite Hl in Hin.
    by destruct Hin.
  - split; [done|]. rewrite (constructed_run c Hl) in Hin.
    fold (loadedDestination c) in Hin.
    destruct (expectedConstruction _ _) as [|k' [|k'' ks]] eqn:Hk.
    + by destruct Hin.
    + destruct Hin as [->|[]]. done.
    + exfalso. unfold expectedConstruction in Hk.
      by destruct (Route (loadedDestination c)) as [[]|].
Qed.

(** A call of [Upload] seen in a trace was made with the API client and the
    uploader configuration of the run, and with the uploader the expected
    constructor built. *)
Lemma upload_in_run `{External} (c : cli_Context) client conf u :
  In (EvUpload client conf u) (snd (run c)) ->
  client = clientOf c
  /\ conf = uploaderConfigOf (loadedConfig c)
  /\ loadError c = None
  /\ exists k,
       expectedConstruction (loadedConfig c) (Route (loadedDestination c))
       = [k]
       /\ built k = Some u.
Proof.
  generalize (run_shape c). generalize (run c). intros r Hs.
  destruct Hs as [e Hl|Hl HR|k e Hl Hk He|k u' calls e Hl Hk Hb Hup
                  |k u' calls Hl Hk Hb Hup]; cbn [snd]; intros Hin.
  - destruct Hin as [|[|[]]]; discriminate.
  - apply in_app_or in Hin as [Hin|Hin].
    + destruct Hin as [|[|[|[]]]]; discriminate.
    + destruct Hin as [|[]]; discriminate.
  - apply in_app_or in Hin as [Hin|Hin].
    + destruct Hin as [|[|[|[]]]]; discriminate.
    + destruct k; destruct Hin as [|[|[|[]]]]; discriminate.
  - apply in_app_or in Hin as [Hin|Hin].
    { destruct Hin as [|[|[|[]]]]; discriminate. }
    apply in_app_or in Hin as [Hin|Hin].
    { destruct k; destruct Hin as [Hin|[Hin|[Hin|[]]]];
        try discriminate; injection Hin as <- <- <-; eauto 10. }
    apply in_app_or in Hin as [Hin|Hin].
    { apply in_map_iff in Hin as (call & Hcall & _). discriminate. }
    destruct Hin as [|[]]; discriminate.
  - apply in_app_or in Hin as [Hin|Hin].
    { destruct Hin as [|[|[|[]]]]; discriminate. }
    apply in_app_or in Hin as [Hin|Hin].
    { destruct k; destruct Hin as [Hin|[Hin|[Hin|[]]]];
        try discriminate; injection Hin as <- <- <-; eauto 10. }
    apply in_app_or in Hin as [Hin|Hin].
    { apply in_map_iff in Hin as (call & Hcall & _). discriminate. }
    destruct Hin as [|[]]; discriminate.
Qed.

Lemma built_constructionError `{External} (k : Constructed) (u : Uploader) :
  built k = Some u -> constructionError k = None.
Proof. unfold built. by destruct (constructionError k). Qed.

Lemma HasPrefix_too_short (s p : string) :
  (String.length s < String.length p)%nat -> HasPrefix s p = false.
Proof.
  intros Hlt. unfold HasPrefix.
  replace (String.length p <=? String.length s)%nat with false; [done|].
  symmetry. apply Nat.leb_gt. lia.
Qed.

(** ** Further properties of the command *)

(** X1: when the loader returns an error the process stops at once: it
    exits 1 after the fatal log call that prints the loader's error, and
    nothing else has happened: no global flags, no API client, no uploader
    constructor, no upload. *)
Theorem X1_load_failure_stops_first `{External} (c : cli_Context)
    (e : string) :
  loadError c = Some e ->
  run c = (1, [EvLoad c; EvFatal "%s" [ArgError (Some e)]]).
Proof.
  intros Hl. rewrite run_unfold. unfold stages. by rewrite Hl.
Qed.

Lemma X1_load_failure_stops_first_witness :
  @loadError Cases.world [] = Some "Missing upload paths"
  /\ @run Cases.world []
     = (1, [@EvLoad Cases.world [];
            EvFatal "%s" [ArgError (Some "Missing upload paths")]]).
Proof.
  split; [reflexivity|].
  apply (@X1_load_failure_stops_first Cases.world []). reflexivity.
Defined.

(** X2: the exit status is 0 or 1, and the deferred [done()] runs exactly
    in the runs that exit 0: the status is 0 if and only if the last event
    is the deferred call, and if and only if no fatal log call was made. *)
Theorem X2_exit_status_and_deferred_done `{External} (c : cli_Context) :
  (fst (run c) = 0 \/ fst (run c) = 1)
  /\ (fst (run c) = 0 <-> last (snd (run c)) = Some EvDone)
  /\ (fst (run c) = 0
      <-> Forall (fun e => isFatal e = false) (snd (run c))).
Proof.
  destruct (run_ending c) as (before & ending & -> & Hbefore & Hend).
  rewrite last_snoc.
  destruct Hend as [[-> ->]|(format & operands & -> & ->)].
  - split; [by left|]. split; [done|]. split; [|done]. intros _.
    apply Forall_app. split; [done|by repeat constructor].
  - split; [by right|]. split; [done|]. split; [done|].
    intros [_ Hf]%Forall_app. by inversion Hf.
Qed.

(** X3: a run that does not exit 0 made exactly one fatal log call, and it
    is the last thing the process did. *)
Theorem X3_single_fatal_is_last `{External} (c : cli_Context) :
  fst (run c) <> 0 ->
  exists before format operands,
    snd (run c) = before ++ [EvFatal format operands]
    /\ Forall (fun e => isFatal e = false) before.
Proof.
  intros Hne. destruct (run_ending c) as (before & ending & Ht & Hb & Hend).
  destruct Hend as [[_ Hz]|(format & operands & -> & _)]; [done|].
  by exists before, format, operands.
Qed.

Lemma X3_single_fatal_is_last_witness :
  fst (@run Cases.world ["log/*"; "rt://repo/logs"]) <> 0
  /\ exists before format operands,
       snd (@run Cases.world ["log/*"; "rt://repo/logs"])
       = before ++ [EvFatal format operands]
       /\ Forall (fun e => @isFatal Cases.world e = false) before.
Proof.
  split; [discriminate|].
  apply (@X3_single_fatal_is_last Cases.world ["log/*"; "rt://repo/logs"]).
  discriminate.
Defined.

(** X4: no run calls more than one uploader constructor, and no run calls
    [Upload] more than once. *)
Theorem X4_one_constructor_one_upload `{External} (c : cli_Context) :
  (length (constructed (snd (run c))) <= 1)%nat
  /\ (length (uploadedWith (snd (run c))) <= 1)%nat.
Proof.
  generalize (run_shape c). generalize (run c). intros r Hs.
  destruct Hs as [e Hl|Hl HR|k e Hl Hk He|k u calls e Hl Hk Hb Hup
                  |k u calls Hl Hk Hb Hup]; cbn [snd].
  - simpl. lia.
  - simpl. lia.
  - rewrite constructed_app, uploadedWith_app.
    rewrite constructed_stage, uploadedWith_stage. simpl. lia.
  - rewrite !constructed_app, !uploadedWith_app.
    rewrite constructed_stage, uploadedWith_stage.
    rewrite constructed_agent, uploadedWith_agent. simpl. lia.
  - rewrite !constructed_app, !uploadedWith_app.
    rewrite constructed_stage, uploadedWith_stage.
    rewrite constructed_agent, uploadedWith_agent. simpl. lia.
Qed.

(** X5: the process exits 0 exactly when everything went through: the
    configuration loaded, the destination selects a constructor, that
    constructor built an uploader, and [Upload] with the run's client, its
    uploader configuration and that uploader returned a nil error. *)
Theorem X5_success_iff `{External} (c : cli_Context) :
  fst (run c) = 0
  <-> loadError c = None
      /\ exists k u,
           expectedConstruction (loadedConfig c)
             (Route (loadedDestination c)) = [k]
           /\ built k = Some u
           /\ snd (ArtifactUploader_Upload (clientOf c)
                     (uploaderConfigOf (loadedConfig c)) u) = None.
Proof.
  generalize (run_shape c). generalize (run c). intros r Hs.
  destruct Hs as [e Hl|Hl HR|k e Hl Hk He|k u calls e Hl Hk Hb Hup
                  |k u calls Hl Hk Hb Hup]; cbn [fst].
  - split; [done|]. intros [Hn _]. congruence.
  - split; [done|]. intros (_ & k & u & Hk & _). rewrite HR in Hk. done.
  - split; [done|]. intros (_ & k' & u & Hk' & Hb & _).
    rewrite Hk in Hk'. injection Hk' as <-.
    apply built_constructionError in Hb. congruence.
  - split; [done|]. intros (_ & k' & u' & Hk' & Hb' & Hn).
    rewrite Hk in Hk'. injection Hk' as <-.
    rewrite Hb in Hb'. injection Hb' as <-. by rewrite Hup in Hn.
  - split; [|done]. intros _. split; [done|]. exists k, u.
    by rewrite Hup.
Qed.

(** X6: when the [Upload] a run made returned an error, the process exits
    1 and its last act is the fatal log call "Failed to upload artifacts"
    with that error as operand; whatever the upload had done by then stays
    in the trace. *)
Theorem X6_upload_error_is_fatal `{External} (c : cli_Context)
    client conf u (e : string) :
  In (EvUpload client conf u) (snd (run c)) ->
  snd (ArtifactUploader_Upload client conf u) = Some e ->
  fst (run c) = 1
  /\ last (snd (run c))
     = Some (EvFatal "Failed to upload artifacts: %s" [ArgError (Some e)])
  /\ forall call,
       In call (fst (ArtifactUploader_Upload client conf u)) ->
       In (EvAgent call) (snd (run c)).
Proof.
  intros Hin He.
  destruct (upload_in_run c client conf u Hin)
    as (-> & -> & Hload & k & Hk & Hb).
  clear Hin. revert He.
  generalize (run_shape c). generalize (run c). intros r Hs.
  destruct Hs as [e' Hl|Hl HR|k' e' Hl Hk' He'|k' u' calls e' Hl Hk' Hb' Hup
                  |k' u' calls Hl Hk' Hb' Hup]; cbn [fst snd]; intros He.
  - congruence.
  - rewrite HR in Hk. done.
  - rewrite Hk in Hk'. injection Hk' as <-.
    apply built_constructionError in Hb. congruence.
  - rewrite Hk in Hk'. injection Hk' as <-.
    rewrite Hb in Hb'. injection Hb' as <-.
    rewrite Hup in He |- *. simpl in He. injection He as ->.
    split; [done|]. split.
    + rewrite !app_assoc. apply last_snoc.
    + cbn [fst]. intros call Hcall. apply in_or_app. right.
      apply in_or_app. right. apply in_or_app. left. by apply in_map.
  - rewrite Hk in Hk'. injection Hk' as <-.
    rewrite Hb in Hb'. injection Hb' as <-. by rewrite Hup in He.
Qed.

Lemma X6_upload_error_is_fatal_witness :
  fst (@run Cases.world ["tmp/*"]) = 1
  /\ last (snd (@run Cases.world ["tmp/*"]))
     = Some (@EvFatal Cases.world "Failed to upload artifacts: %s"
               [ArgError (Some "1 artifact failed")])
  /\ forall call,
       In call
          (fst (@ArtifactUploader_Upload Cases.world "https://agent.example"
                  (ArtifactUploaderConfig.mk "job-7" "tmp/*" EmptyString
                     "text/plain" true true)
                  "FormUploader")) ->
       In (@EvAgent Cases.world call) (snd (@run Cases.world ["tmp/*"])).
Proof.
  apply (@X6_upload_error_is_fatal Cases.world ["tmp/*"]
           "https://agent.example"
           (ArtifactUploaderConfig.mk "job-7" "tmp/*" EmptyString
              "text/plain" true true)
           "FormUploader" "1 artifact failed");
    [simpl; tauto | reflexivity].
Defined.

(** X7: whatever [Upload] a run makes, it is made with the API client built
    from the loaded configuration under the token field [AgentAccessToken],
    and with an uploader configuration that copies the job, the upload
    paths, the destination, the content type, the HTTP-debugging switch and
    the follow-symlinks switch of the loaded configuration. *)
Theorem X7_upload_gets_the_configuration `{External} (c : cli_Context)
    client conf u :
  In (EvUpload client conf u) (snd (run c)) ->
  client
  = api_NewClient (loadAPIClientConfig (loadedConfig c) "AgentAccessToken")
  /\ ArtifactUploaderConfig.JobID conf
     = ArtifactUploadConfig.Job (loadedConfig c)
  /\ ArtifactUploaderConfig.Paths conf
     = ArtifactUploadConfig.UploadPaths (loadedConfig c)
  /\ ArtifactUploaderConfig.Destination conf
     = ArtifactUploadConfig.Destination (loadedConfig c)
  /\ ArtifactUploaderConfig.ContentType conf
     = ArtifactUploadConfig.ContentType (loadedConfig c)
  /\ ArtifactUploaderConfig.DebugHTTP conf
     = ArtifactUploadConfig.DebugHTTP (loadedConfig c)
  /\ ArtifactUploaderConfig.FollowSymlinks conf
     = ArtifactUploadConfig.FollowSymlinks (loadedConfig c).
Proof.
  intros Hin. by destruct (upload_in_run c client conf u Hin) as (-> & -> & _).
Qed.

Lemma X7_upload_gets_the_configuration_witness :
  "https://agent.example"
  = @api_NewClient Cases.world
      (@loadAPIClientConfig Cases.world
         (@loadedConfig Cases.world ["pkg/*"; "s3://bucket/pkg"])
         "AgentAccessToken")
  /\ "job-7"
     = ArtifactUploadConfig.Job
         (@loadedConfig Cases.world ["pkg/*"; "s3://bucket/pkg"])
  /\ "pkg/*"
     = ArtifactUploadConfig.UploadPaths
         (@loadedConfig Cases.world ["pkg/*"; "s3://bucket/pkg"])
  /\ "s3://bucket/pkg"
     = ArtifactUploadConfig.Destination
         (@loadedConfig Cases.world ["pkg/*"; "s3://bucket/pkg"])
  /\ "text/plain"
     = ArtifactUploadConfig.ContentType
         (@loadedConfig Cases.world ["pkg/*"; "s3://bucket/pkg"])
  /\ true
     = ArtifactUploadConfig.DebugHTTP
         (@loadedConfig Cases.world ["pkg/*"; "s3://bucket/pkg"])
  /\ true
     = ArtifactUploadConfig.FollowSymlinks
         (@loadedConfig Cases.world ["pkg/*"; "s3://bucket/pkg"]).
Proof.
  apply (@X7_upload_gets_the_configuration Cases.world
           ["pkg/*"; "s3://bucket/pkg"] "https://agent.example"
           (ArtifactUploaderConfig.mk "job-7" "pkg/*" "s3://bucket/pkg"
              "text/plain" true true)
           "S3Uploader").
  simpl. tauto.
Defined.

(** X8: the three prefix tests exclude one another: no destination passes
    two of them, so which test comes first never changes the backend. *)
Theorem X8_prefix_tests_exclusive (dest : string) :
  ~ (HasPrefix dest "s3://" = true /\ HasPrefix dest "gs://" = true)
  /\ ~ (HasPrefix dest "s3://" = true /\ HasPrefix dest "rt://" = true)
  /\ ~ (HasPrefix dest "gs://" = true /\ HasPrefix dest "rt://" = true).
Proof.
  repeat split; intros [[r1 H1]%HasPrefix_iff [r2 H2]%HasPrefix_iff];
    rewrite H1 in H2; discriminate.
Qed.

(** X9: a non-empty destination of fewer than five bytes cannot carry any of
    the prefixes: the run ends on the invalid-destination failure. *)
Theorem X9_short_destination_is_invalid `{External} (c : cli_Context) :
  loadError c = None ->
  loadedDestination c <> EmptyString ->
  (String.length (loadedDestination c) < 5)%nat ->
  run c
  = (1, preamble c
        ++ [EvFatal (invalidDestinationMessage (loadedDestination c)) []]).
Proof.
  intros Hl Hd Hlen. rewrite run_unfold. unfold stages. rewrite Hl.
  fold (loadedDestination c). rewrite (eqb_empty_false _ Hd).
  by rewrite !HasPrefix_too_short.
Qed.

Lemma X9_short_destination_is_invalid_witness :
  @run Cases.world ["log/*"; "s3:/"]
  = (1, @preamble Cases.world ["log/*"; "s3:/"]
        ++ [EvFatal (invalidDestinationMessage "s3:/") []]).
Proof.
  apply (@X9_short_destination_is_invalid Cases.world ["log/*"; "s3:/"]);
    [reflexivity | discriminate | simpl; lia].
Defined.

(** X10: the line "Uploading to ..., using your agent configuration" is
    logged before the constructor's error is looked at: when the
    constructor called in a run returned an error, the trace ends with that
    line, with the destination as operand, followed by the fatal log
    call. *)
Theorem X10_upload_line_precedes_error_check `{External} (c : cli_Context)
    (k : Constructed) (e : string) :
  In k (constructed (snd (run c))) ->
  constructionError k = Some e ->
  exists before,
    snd (run c)
    = before
      ++ [EvInfo "Uploading to %q, using your agent configuration"
            [ArgString (loadedDestination c)];
          EvFatal ("Error creating uploader: " +:+ e) []]
    /\ constructed before = [k].
Proof.
  intros Hin He. destruct (constructed_in_run c k Hin) as [Hload Hk].
  clear Hin.
  generalize (run_shape c). generalize (run c). intros r Hs.
  destruct Hs as [e' Hl|Hl HR|k' e' Hl Hk' He'|k' u' calls e' Hl Hk' Hb' Hup
                  |k' u' calls Hl Hk' Hb' Hup]; cbn [snd].
  - congruence.
  - rewrite HR in Hk. done.
  - rewrite Hk in Hk'. injection Hk' as <-.
    rewrite He in He'. injection He' as <-.
    exists (preamble c ++ [constructorEvent k]).
    rewrite <- app_assoc. split; [|by destruct k].
    by destruct k.
  - rewrite Hk in Hk'. injection Hk' as <-.
    apply built_constructionError in Hb'. congruence.
  - rewrite Hk in Hk'. injection Hk' as <-.
    apply built_constructionError in Hb'. congruence.
Qed.

Lemma X10_upload_line_precedes_error_check_witness :
  exists before,
    snd (@run Cases.world ["log/*"; "rt://repo/logs"])
    = before
      ++ [EvInfo "Uploading to %q, using your agent configuration"
            [ArgString (@loadedDestination Cases.world
                          ["log/*"; "rt://repo/logs"])];
          EvFatal
            ("Error creating uploader: "
             +:+ "no Artifactory server configured") []]
    /\ @constructed Cases.world before
       = [ByNewArtifactoryUploader
            (ArtifactoryUploaderConfig.mk "rt://repo/logs" true)].
Proof.
  apply (@X10_upload_line_precedes_error_check Cases.world
           ["log/*"; "rt://repo/logs"]
           (ByNewArtifactoryUploader
              (ArtifactoryUploaderConfig.mk "rt://repo/logs" true))
           "no Artifactory server configured");
    [simpl; tauto | reflexivity].
Defined.

(** X11: the first event of a trace that touches artifacts, if there is
    one, is the call of [Upload], and by then exactly one constructor has
    been called and the uploader passed is the one it built: nothing is
    resolved, uploaded or registered before an uploader exists. *)
Theorem X11_nothing_touched_before_upload `{External} (c : cli_Context) :
  exists before rest,
    snd (run c) = before ++ rest
    /\ Forall (fun e => touchesArtifacts e = false) before
    /\ (rest = []
        \/ exists k u tail,
             rest = EvUpload (clientOf c) (uploaderConfigOf (loadedConfig c))
                      u :: tail
             /\ constructed before = [k]
             /\ built k = Some u).
Proof.
  generalize (run_shape c). generalize (run c). intros r Hs.
  destruct Hs as [e Hl|Hl HR|k e Hl Hk He|k u calls e Hl Hk Hb Hup
                  |k u calls Hl Hk Hb Hup]; cbn [snd].
  - eexists _, []. rewrite app_nil_r. split; [done|].
    split; [by repeat constructor|by left].
  - eexists _, []. rewrite app_nil_r. split; [done|].
    split; [by repeat constructor|by left].
  - eexists _, []. rewrite app_nil_r. split; [done|]. split; [|by left].
    apply Forall_app. split; repeat constructor; auto with trace.
  - exists (preamble c ++ [constructorEvent k; infoLine (loadedConfig c) k]).
    eexists. split; [by rewrite <- app_assoc|]. split.
    + apply Forall_app. split; repeat constructor; auto with trace.
    + right. exists k, u. eexists. split; [done|]. split; [|done].
      rewrite constructed_app, constructed_stage. done.
  - exists (preamble c ++ [constructorEvent k; infoLine (loadedConfig c) k]).
    eexists. split; [by rewrite <- app_assoc|]. split.
    + apply Forall_app. split; repeat constructor; auto with trace.
    + right. exists k, u. eexists. split; [done|]. split; [|done].
      rewrite constructed_app, constructed_stage. done.
Qed.

(** X12: [strings.HasPrefix] is literal: it answers true exactly for the
    strings that are the prefix followed by something, byte for byte. *)
Theorem X12_HasPrefix_is_literal (s p : string) :
  HasPrefix s p = true <-> exists rest, s = p +:+ rest.
Proof. apply HasPrefix_iff. Qed.

(** X13: a run whose configuration loaded starts by handling the global
    flags with that configuration and then creating the API client, before
    the destination is looked at, whatever it is. *)
Theorem X13_setup_comes_first `{External} (c : cli_Context) :
  loadError c = None ->
  exists rest,
    snd (run c)
    = [EvLoad c; EvHandleGlobalFlags (loadedConfig c);
       EvNewClient
         (loadAPIClientConfig (loadedConfig c) "AgentAccessToken")]
      ++ rest
    /\ Forall (fun e => match e with
                        | EvLoad _ | EvHandleGlobalFlags _ | EvNewClient _ =>
                            False
                        | _ => True
                        end) rest.
Proof.
  intros Hload.
  generalize (run_shape c). generalize (run c). intros r Hs.
  destruct Hs as [e Hl|Hl HR|k e Hl Hk He|k u calls e Hl Hk Hb Hup
                  |k u calls Hl Hk Hb Hup]; cbn [snd].
  - congruence.
  - eexists. split; [reflexivity|]. by repeat constructor.
  - eexists. split; [reflexivity|]. destruct k; by repeat constructor.
  - eexists. split; [reflexivity|].
    apply Forall_app. split; [destruct k; by repeat constructor|].
    apply Forall_app. split; [by apply Forall_agent|by repeat constructor].
  - eexists. split; [reflexivity|].
    apply Forall_app. split; [destruct k; by repeat constructor|].
    apply Forall_app. split; [by apply Forall_agent|by repeat constructor].
Qed.

Lemma X13_setup_comes_first_witness :
  exists rest : list (@Event Cases.world),
    snd (@run Cases.world ["log/*"; "ftp://host/logs"])
    = [@EvLoad Cases.world ["log/*"; "ftp://host/logs"];
       EvHandleGlobalFlags
         (@loadedConfig Cases.world ["log/*"; "ftp://host/logs"]);
       EvNewClient
         (@loadAPIClientConfig Cases.world
            (@loadedConfig Cases.world ["log/*"; "ftp://host/logs"])
            "AgentAccessToken")]
      ++ rest
    /\ Forall (fun e => match e with
                        | EvLoad _ | EvHandleGlobalFlags _ | EvNewClient _ =>
                            False
                        | _ => True
                        end) rest.
Proof.
  apply (@X13_setup_comes_first Cases.world ["log/*"; "ftp://host/logs"]).
  reflexivity.
Defined.

(** X14: for an invalid destination without a percent sign, what the
    logger prints on the fatal call is the text the command built: it holds
    the destination between quotes, and the hint about the unquoted
    pattern. *)
Theorem X14_plain_destination_is_named `{External} (c : cli_Context) :
  loadError c = None ->
  loadedDestination c <> EmptyString ->
  (forall rest, loadedDestination c <> "s3://" +:+ rest) ->
  (forall rest, loadedDestination c <> "gs://" +:+ rest) ->
  (forall rest, loadedDestination c <> "rt://" +:+ rest) ->
  percentFree (loadedDestination c) = true ->
  exists format,
    last (snd (run c)) = Some (EvFatal format [])
    /\ printed (EvFatal format [])
       = Some ("Invalid upload destination: '" +:+ loadedDestination c
               +:+ "'. Only s3://, gs:// or rt:// upload destinations are allowed. Did you forget to surround your artifact upload pattern in double quotes?").
Proof.
  intros Hload Hd Hs3 Hgs Hrt Hfree.
  exists (invalidDestinationMessage (loadedDestination c)).
  rewrite (run_invalid_destination c Hload Hd Hs3 Hgs Hrt).
  split; [done|]. unfold printed. f_equal.
  apply Sprintf_percentFree. unfold invalidDestinationMessage.
  rewrite !percentFree_append. fold (loadedDestination c).
  by rewrite Hfree.
Qed.

Lemma X14_plain_destination_is_named_witness :
  exists format,
    last (snd (@run Cases.world ["log/*"; "ftp://host/logs"]))
    = Some (@EvFatal Cases.world format [])
    /\ @printed Cases.world (EvFatal format [])
       = Some ("Invalid upload destination: '"
               +:+ @loadedDestination Cases.world ["log/*"; "ftp://host/logs"]
               +:+ "'. Only s3://, gs:// or rt:// upload destinations are allowed. Did you forget to surround your artifact upload pattern in double quotes?").
Proof.
  apply (@X14_plain_destination_is_named Cases.world
           ["log/*"; "ftp://host/logs"]);
    [reflexivity | discriminate | intros rest; discriminate ..
     | reflexivity].
Defined.
